(** * RAG-QnA: document ingestion, chunking and the embedding-model cache

    A shallow embedding of [app/core/document_processor.py],
    [app/core/embeddings.py] and the upload route of
    [app/api/routes/documents.py], together with the library code these
    modules call: [str] and [pathlib] from the Python standard library,
    [tempfile.NamedTemporaryFile], [functools.lru_cache], and the
    [RecursiveCharacterTextSplitter] of [langchain_text_splitters] as the
    processor configures it. *)

From Stdlib Require Import ZArith Ascii String.
From stdpp Require Import gmap list.

Local Open Scope Z_scope.

(** ** Python strings

    A [str] is a sequence of Unicode code points; [len] counts them. *)

Module Py.

(** A literal, written with Rocq's string notation. *)
Definition lit (s : string) : list N :=
  N_of_ascii <$> list_ascii_of_string s.

Definition len {A} (l : list A) : Z := Z.of_nat (length l).

(** [str.isspace] on one code point: the characters whose bidirectional
    class is WS, B or S, or whose category is Zs. *)
Definition isspace (c : N) : bool :=
  (((9 <=? c) && (c <=? 13)) || ((28 <=? c) && (c <=? 32))
   || (c =? 133) || (c =? 160) || (c =? 5760)
   || ((8192 <=? c) && (c <=? 8202)) || (c =? 8232) || (c =? 8233)
   || (c =? 8239) || (c =? 8287) || (c =? 12288))%N.

Fixpoint lstrip (s : list N) : list N :=
  match s with
  | c :: s' => if isspace c then lstrip s' else s
  | [] => []
  end.

Definition rstrip (s : list N) : list N := reverse (lstrip (reverse s)).

(** [s.strip()] *)
Definition strip (s : list N) : list N := lstrip (rstrip s).

(** [str.lower] on one code point. Only the ASCII capitals are mapped;
    the extensions the processor compares against are ASCII, and no
    other code point lowercases to one of their letters. *)
Definition lower_char (c : N) : N :=
  if ((65 <=? c) && (c <=? 90))%N then (c + 32)%N else c.

Definition lower (s : list N) : list N := lower_char <$> s.

(** [s.startswith(p)] *)
Fixpoint startswith (p s : list N) : bool :=
  match p, s with
  | [], _ => true
  | a :: p', b :: s' => (a =? b)%N && startswith p' s'
  | _ :: _, [] => false
  end.

(** [p in s], which is what [re.search(re.escape(p), s)] decides. *)
Fixpoint contains (p s : list N) : bool :=
  startswith p s ||
  match s with
  | [] => false
  | _ :: s' => contains p s'
  end.

(** [s.rfind(c)] for a one-character needle, as the index of the last
    occurrence, [None] for Python's [-1]. *)
Fixpoint rfind (c : N) (s : list N) : option nat :=
  match s with
  | [] => None
  | a :: s' =>
      match rfind c s' with
      | Some i => Some (S i)
      | None => if (a =? c)%N then Some O else None
      end
  end.

(** [s.split(c)] for a one-character separator. *)
Fixpoint split_char (c : N) (s : list N) : list (list N) :=
  match s with
  | [] => [[]]
  | a :: s' =>
      if (a =? c)%N then [] :: split_char c s'
      else match split_char c s' with
           | w :: ws => (a :: w) :: ws
           | [] => [[a]]
           end
  end.

(** [re.split("(" + re.escape(sep) + ")", text)] for a non-empty literal
    [sep]: the text between the matches, found left to right without
    overlap, interleaved with the captured separator. [skip] counts the
    characters of the current match still to be consumed and [cur] holds
    the piece being read, in reverse. *)
Fixpoint re_split_group (sep : list N) (skip : nat) (cur : list N)
    (text : list N) : list (list N) :=
  match text with
  | [] => [reverse cur]
  | c :: text' =>
      match skip with
      | S k => re_split_group sep k cur text'
      | O =>
          if startswith sep text
          then reverse cur :: sep
                 :: re_split_group sep (length sep - 1) [] text'
          else re_split_group sep O (c :: cur) text'
      end
  end.

(** [sep.join(parts)] *)
Fixpoint join (sep : list N) (parts : list (list N)) : list N :=
  match parts with
  | [] => []
  | [x] => x
  | x :: rest => x ++ sep ++ join sep rest
  end.

(** [x or y] where [x] is an optional integer: [None] and [0] are the
    falsy values. *)
Definition or_int (x : option Z) (y : Z) : Z :=
  match x with
  | Some v => if v =? 0 then y else v
  | None => y
  end.

End Py.


(** ** Exceptions

    The processor raises one error of its own, the [ValueError] for an
    unsupported extension; everything else comes out of library code. *)

Inductive lib_exn :=
  | ValueError (msg : string)
  | FileExistsError
  | OtherException (msg : string).

Inductive exn :=
  | UnsupportedExtension (extension : list N)
  | Raised (e : lib_exn).

Inductive result (A : Type) :=
  | Ok (a : A)
  | Raise (e : exn).
Arguments Ok {A} a.
Arguments Raise {A} e.

(** The values a call returned: nothing when it raised. *)
Definition returned {A} (r : result (list A)) : list A :=
  match r with
  | Ok l => l
  | Raise _ => []
  end.

(** ** Documents

    [langchain_core.documents.Document]: the text and a metadata dict. *)

Inductive pyval :=
  | VStr (s : list N)
  | VInt (n : Z).

Record Document := mkDocument {
  page_content : list N;
  metadata : gmap (list N) pyval
}.

(** ** The text splitter

    [langchain_text_splitters.RecursiveCharacterTextSplitter] with the
    arguments of [DocumentProcessor._initialize_text_splitter]: the length
    function is [len], and [keep_separator], [strip_whitespace],
    [add_start_index] and [is_separator_regex] keep their defaults (true,
    true, false, false). *)

Module Splitter.

Record t := mk {
  _chunk_size : Z;
  _chunk_overlap : Z;
  _separators : list (list N)
}.

(** The separators used when none are given. *)
Definition default_separators : list (list N) :=
  [[10; 10]; [10]; [32]; []]%N.

(** [RecursiveCharacterTextSplitter.__init__]: the checks of
    [TextSplitter.__init__] on the two sizes, as the current releases of
    the library make them, then [separators or default_separators]. *)
Definition init (chunk_size chunk_overlap : Z) (separators : list (list N))
    : result t :=
  if chunk_size <=? 0 then
    Raise (Raised (ValueError "chunk_size must be > 0"))
  else if chunk_overlap <? 0 then
    Raise (Raised (ValueError "chunk_overlap must be >= 0"))
  else if chunk_size <? chunk_overlap then
    Raise (Raised (ValueError "Got a larger chunk overlap than chunk size"))
  else Ok (mk chunk_size chunk_overlap
             (match separators with
              | [] => default_separators
              | _ :: _ => separators
              end)).

(** [_join_docs]: join, strip, and [None] for an empty text. *)
Definition _join_docs (docs : list (list N)) (separator : list N)
    : option (list N) :=
  match Py.strip (Py.join separator docs) with
  | [] => None
  | text => Some text
  end.

Definition append_doc (docs : list (list N)) (doc : option (list N))
    : list (list N) :=
  match doc with
  | Some d => docs ++ [d]
  | None => docs
  end.

(** The separator counted once [current_doc] holds more than [k]
    pieces. *)
Definition sep_if_longer (separator_len : Z) (current_doc : list (list N))
    (k : nat) : Z :=
  if (k <? length current_doc)%nat then separator_len else 0.

(** The [while] loop of [_merge_splits], popping pieces off the front of
    [current_doc]. On an empty [current_doc] Python would raise
    [IndexError] if the condition held; it cannot, see
    [pop_condition_empty]. *)
Fixpoint pop_loop (self : t) (separator_len _len : Z)
    (current_doc : list (list N)) (total : Z) : list (list N) * Z :=
  match current_doc with
  | [] => ([], total)
  | d0 :: rest =>
      if (_chunk_overlap self <? total)
         || ((_chunk_size self
                <? total + _len + sep_if_longer separator_len current_doc 0)
             && (0 <? total))
      then pop_loop self separator_len _len rest
             (total - (Py.len d0 + sep_if_longer separator_len current_doc 1))
      else (current_doc, total)
  end.

(** The [for] loop of [_merge_splits] over the remaining [splits]. *)
Fixpoint merge_loop (self : t) (separator : list N) (splits : list (list N))
    (docs current_doc : list (list N)) (total : Z) : list (list N) :=
  match splits with
  | [] => append_doc docs (_join_docs current_doc separator)
  | d :: splits' =>
      let separator_len := Py.len separator in
      let _len := Py.len d in
      let '(docs, current_doc, total) :=
        if _chunk_size self
             <? total + _len + sep_if_longer separator_len current_doc 0
        then
          match current_doc with
          | [] => (docs, current_doc, total)
          | _ :: _ =>
              let docs := append_doc docs (_join_docs current_doc separator) in
              let '(current_doc, total) :=
                pop_loop self separator_len _len current_doc total in
              (docs, current_doc, total)
          end
        else (docs, current_doc, total) in
      let current_doc := current_doc ++ [d] in
      merge_loop self separator splits' docs current_doc
        (total + (_len + sep_if_longer separator_len current_doc 1))
  end.

Definition _merge_splits (self : t) (splits : list (list N))
    (separator : list N) : list (list N) :=
  merge_loop self separator splits [] [] 0.

(** The comprehension [_splits[i] + _splits[i + 1]] over the odd [i]:
    each captured separator glued to the text that follows it. The list
    [re.split] returns has odd length ([re_split_group_odd]), so after its
    head the elements come in pairs. *)
Fixpoint glue_pairs (l : list (list N)) : list (list N) :=
  match l with
  | a :: b :: l' => (a ++ b) :: glue_pairs l'
  | _ => []
  end.

(** [_split_text_with_regex(text, re.escape(separator), True)] *)
Definition _split_text_with_regex (text separator : list N)
    : list (list N) :=
  let splits :=
    match separator with
    | [] => (fun c => [c]) <$> text
    | _ :: _ =>
        match Py.re_split_group separator 0 [] text with
        | first :: rest => first :: glue_pairs rest
        | [] => []
        end
    end in
  filter (fun s => s <> []) splits.

(** The loop of [_split_text] over the pieces of one text. [recurse] is
    [_split_text] on [new_separators], absent when that list is empty;
    the pieces are merged with the empty separator because separators
    are kept. *)
Fixpoint split_loop (self : t) (recurse : option (list N -> list (list N)))
    (splits final_chunks _good_splits : list (list N)) : list (list N) :=
  match splits with
  | [] =>
      match _good_splits with
      | [] => final_chunks
      | _ :: _ => final_chunks ++ _merge_splits self _good_splits []
      end
  | s :: splits' =>
      if Py.len s <? _chunk_size self
      then split_loop self recurse splits' final_chunks (_good_splits ++ [s])
      else
        let final_chunks :=
          match _good_splits with
          | [] => final_chunks
          | _ :: _ => final_chunks ++ _merge_splits self _good_splits []
          end in
        let final_chunks :=
          match recurse with
          | None => final_chunks ++ [s]
          | Some f => final_chunks ++ f s
          end in
        split_loop self recurse splits' final_chunks []
  end.

Definition split_with (self : t) (separator : list N)
    (recurse : option (list N -> list (list N))) (text : list N)
    : list (list N) :=
  split_loop self recurse (_split_text_with_regex text separator) [] [].

(** [_split_text(text, separators)] for the non-empty list
    [s :: rest]. The search for the separator to use stops at the empty
    separator or at the first one found in the text; when it runs off
    the end, the last separator is used. *)
Fixpoint _split_text (self : t) (s : list N) (rest : list (list N))
    (text : list N) {struct rest} : list (list N) :=
  match s with
  | [] => split_with self [] None text
  | _ :: _ =>
      match rest with
      | [] => split_with self s None text
      | s' :: rest' =>
          if Py.contains s text
          then split_with self s (Some (_split_text self s' rest')) text
          else _split_text self s' rest' text
      end
  end.

(** [split_text(text)] *)
Definition split_text (self : t) (text : list N) : list (list N) :=
  match _separators self with
  | [] => []
  | s :: rest => _split_text self s rest text
  end.

(** [create_documents(texts, metadatas)] over the texts and metadata of
    [documents], as [split_documents] calls it: every chunk gets a copy
    of the metadata of the document it came from. *)
Definition split_documents (self : t) (documents : list Document)
    : list Document :=
  doc ← documents;
  (fun chunk => mkDocument chunk (metadata doc))
    <$> split_text self (page_content doc).

End Splitter.

(** ** Paths

    [pathlib.Path(s).suffix]. A path is kept as the string it was built
    from, which names the same file as its normalised form. *)

Module Path.

Definition slash : N := 47.
Definition dot : N := 46.

(** The components of a path: the pieces between slashes that are
    neither empty nor a single dot. *)
Definition parts (path : list N) : list (list N) :=
  filter (fun x => x <> [] /\ x <> [dot]) (Py.split_char slash path).

(** [Path(path).name]: the last component, or the empty string. *)
Definition name (path : list N) : list N :=
  default [] (last (parts path)).

(** [Path(path).suffix]: the name from its last dot on, unless that dot
    is the first or the last character of the name. *)
Definition suffix (path : list N) : list N :=
  let name := name path in
  match Py.rfind dot name with
  | Some i =>
      if ((0 <? i) && (i <? length name - 1))%nat then drop i name else []
  | None => []
  end.

End Path.

(** ** The world outside the processor

    Files are looked up by path. [tmpdir] is [tempfile.gettempdir()],
    [TMP_MAX] the number of names [tempfile] tries, and [rng] the stream of
    random choices behind its candidate names, of which [drawn] names have
    been taken. *)

Record World := mkWorld {
  fs : gmap (list N) (list N);
  tmpdir : list N;
  TMP_MAX : nat;
  rng : nat -> nat;
  drawn : nat
}.

(** An uploaded stream ([BinaryIO]): its bytes, the read position, and
    whether it has been closed. *)
Record BinaryIO := mkBinaryIO {
  content : list N;
  position : nat;
  closed : bool
}.

(** [file.read()] *)
Definition read (file : BinaryIO) : BinaryIO * result (list N) :=
  if closed file then
    (file, Raise (Raised (ValueError "I/O operation on closed file.")))
  else
    (mkBinaryIO (content file) (length (content file)) false,
     Ok (drop (position file) (content file))).

Module tempfile.

(** The alphabet of [_RandomNameSequence]. *)
Definition characters : list N :=
  Py.lit "abcdefghijklmnopqrstuvwxyz0123456789_".

(** The [k]-th candidate name: eight random choices from
    [characters]. *)
Definition candidate (rng : nat -> nat) (k : nat) : list N :=
  (fun i => default 95%N
              (characters !! (rng (8 * k + i) mod length characters)%nat))
    <$> seq 0 8.

(** [os.path.join(dir, file)] for a relative [file]. *)
Definition join (dir file : list N) : list N :=
  match last dir with
  | None => file
  | Some c => if (c =? Path.slash)%N then dir ++ file
              else dir ++ Path.slash :: file
  end.

(** The loop of [_mkstemp_inner]: try candidate names until one names
    no existing file; give up after [attempts] of them. *)
Fixpoint _mkstemp_inner (files : gmap (list N) (list N)) (dir pre suf : list N)
    (rng : nat -> nat) (k attempts : nat) : nat * option (list N) :=
  match attempts with
  | O => (k, None)
  | S attempts' =>
      let file := join dir (pre ++ candidate rng k ++ suf) in
      match files !! file with
      | Some _ => _mkstemp_inner files dir pre suf rng (S k) attempts'
      | None => (S k, Some file)
      end
  end.

(** [NamedTemporaryFile(delete=False, suffix=suffix)]: an empty file
    under a fresh name, returned by name. *)
Definition NamedTemporaryFile (w : World) (suffix : list N)
    : World * result (list N) :=
  match _mkstemp_inner (fs w) (tmpdir w) (Py.lit "tmp") suffix (rng w)
          (drawn w) (TMP_MAX w) with
  | (k, Some file) =>
      (mkWorld (<[file := []]> (fs w)) (tmpdir w) (TMP_MAX w) (rng w) k,
       Ok file)
  | (k, None) =>
      (mkWorld (fs w) (tmpdir w) (TMP_MAX w) (rng w) k,
       Raise (Raised FileExistsError))
  end.

End tempfile.

(** [tmp_file.write(data)] followed by the close that ends the [with]
    block, for a write that succeeds: a write that fails (a full disk)
    is not modelled. *)
Definition write_file (w : World) (path data : list N) : World :=
  mkWorld (<[path := data]> (fs w)) (tmpdir w) (TMP_MAX w) (rng w) (drawn w).

(** [Path(path).unlink(missing_ok=True)] *)
Definition unlink (w : World) (path : list N) : World :=
  mkWorld (delete path (fs w)) (tmpdir w) (TMP_MAX w) (rng w) (drawn w).

(** ** External collaborators

    The three loaders of [langchain_community] read the file system and
    return documents or raise; [get_settings()] and the vector store
    belong to modules of the application outside this development. *)

Class Loaders := {
  PyPDFLoader : gmap (list N) (list N) -> list N -> lib_exn + list Document;
  TextLoader : gmap (list N) (list N) -> list N -> lib_exn + list Document;
  CSVLoader : gmap (list N) (list N) -> list N -> lib_exn + list Document
}.

Module Config.

Record Settings := mkSettings {
  chunk_size : Z;
  chunk_overlap : Z;
  embedding_model : list N;
  openai_api_key : list N
}.

End Config.

(** [VectorStoreService()] may fail to connect; [add_documents] returns
    the identifiers of the stored documents. *)
Class VectorStore := {
  connect : option lib_exn;
  add_documents : list Document -> lib_exn + list (list N)
}.

Definition lift {A} (r : lib_exn + A) : result A :=
  match r with
  | inl e => Raise (Raised e)
  | inr a => Ok a
  end.

(** ** [app/core/document_processor.py] *)

Module DocumentProcessor.

Record t := mk {
  self_chunk_size : Z;
  self_chunk_overlap : Z;
  text_splitter : Splitter.t
}.

Definition SUPPORTED_EXTENSIONS : gset (list N) :=
  {[ Py.lit ".txt"; Py.lit ".pdf"; Py.lit ".csv" ]}.

(** The separator list handed to the splitter: two newlines, one
    newline, a full stop and a space, a space, the empty string. *)
Definition separators : list (list N) :=
  [[10; 10]; [10]; [46; 32]; [32]; []]%N.

(** [_initialize_text_splitter] *)
Definition _initialize_text_splitter (chunk_size chunk_overlap : Z)
    : result Splitter.t :=
  Splitter.init chunk_size chunk_overlap separators.

(** [__init__(chunk_size, chunk_overlap)], given what [get_settings()]
    returns. *)
Definition __init__ (settings : Config.Settings)
    (chunk_size chunk_overlap : option Z) : result t :=
  let self_chunk_size := Py.or_int chunk_size (Config.chunk_size settings) in
  let self_chunk_overlap :=
    Py.or_int chunk_overlap (Config.chunk_overlap settings) in
  match _initialize_text_splitter self_chunk_size self_chunk_overlap with
  | Ok splitter => Ok (mk self_chunk_size self_chunk_overlap splitter)
  | Raise e => Raise e
  end.

Section WithLoaders.
Context `{Loaders}.

Definition load_pdf (files : gmap (list N) (list N)) (file_path : list N)
    : result (list Document) :=
  lift (PyPDFLoader files file_path).

Definition load_text (files : gmap (list N) (list N)) (file_path : list N)
    : result (list Document) :=
  lift (TextLoader files file_path).

Definition load_csv (files : gmap (list N) (list N)) (file_path : list N)
    : result (list Document) :=
  lift (CSVLoader files file_path).

(** The dict [loaders] of [load_file]. *)
Definition loaders
    : gmap (list N)
        (gmap (list N) (list N) -> list N -> result (list Document)) :=
  <[Py.lit ".pdf" := load_pdf]>
    (<[Py.lit ".txt" := load_text]>
       (<[Py.lit ".csv" := load_csv]> ∅)).

(** [load_file(file_path)] *)
Definition load_file (files : gmap (list N) (list N)) (file_path : list N)
    : result (list Document) :=
  let extension := Py.lower (Path.suffix file_path) in
  if decide (extension ∉ SUPPORTED_EXTENSIONS) then
    Raise (UnsupportedExtension extension)
  else
    match loaders !! extension with
    | Some loader => loader files file_path
    | None => Raise (Raised (OtherException "KeyError"))
    end.

(** [split_documents(documents)] *)
Definition split_documents (self : t) (documents : list Document)
    : list Document :=
  Splitter.split_documents (text_splitter self) documents.

(** [process_file(file_path)] *)
Definition process_file (self : t) (files : gmap (list N) (list N))
    (file_path : list N) : result (list Document) :=
  match load_file files file_path with
  | Ok documents => Ok (split_documents self documents)
  | Raise e => Raise e
  end.

(** [doc.metadata["source"] = filename] *)
Definition set_source (filename : list N) (doc : Document) : Document :=
  mkDocument (page_content doc)
    (<[Py.lit "source" := VStr filename]> (metadata doc)).

(** [load_from_uploaded_file(file, filename)]. The [with] block
    creates the temporary file, reads the upload and writes it out;
    the [try] loads the file and stamps the documents, and its
    [finally] removes the file. *)
Definition load_from_uploaded_file (w : World) (file : BinaryIO)
    (filename : list N) : World * BinaryIO * result (list Document) :=
  let extension := Py.lower (Path.suffix filename) in
  if decide (extension ∉ SUPPORTED_EXTENSIONS) then
    (w, file, Raise (UnsupportedExtension extension))
  else
    match tempfile.NamedTemporaryFile w extension with
    | (w, Raise e) => (w, file, Raise e)
    | (w, Ok tmp_path) =>
        match read file with
        | (file, Raise e) => (w, file, Raise e)
        | (file, Ok data) =>
            let w := write_file w tmp_path data in
            let outcome :=
              match load_file (fs w) tmp_path with
              | Ok documents => Ok (set_source filename <$> documents)
              | Raise e => Raise e
              end in
            (unlink w tmp_path, file, outcome)
        end
    end.

(** [process_upload(file, filename)] *)
Definition process_upload (self : t) (w : World) (file : BinaryIO)
    (filename : list N) : World * BinaryIO * result (list Document) :=
  match load_from_uploaded_file w file filename with
  | (w, file, Ok documents) => (w, file, Ok (split_documents self documents))
  | (w, file, Raise e) => (w, file, Raise e)
  end.

End WithLoaders.

End DocumentProcessor.

(** ** [app/api/routes/documents.py] *)

Module Routes.

Record UploadFile := mkUploadFile {
  filename : option (list N);
  file : BinaryIO
}.

Record DocumentUploadResponse := mkDocumentUploadResponse {
  message : string;
  response_filename : list N;
  chunks_created : Z;
  document_ids : list (list N)
}.

Inductive http_outcome :=
  | Returned (response : DocumentUploadResponse)
  | HTTPException (status_code : Z).

(** [except ValueError] answers 400, [except Exception] answers 500. *)
Definition status_of (e : exn) : Z :=
  match e with
  | UnsupportedExtension _ => 400
  | Raised (ValueError _) => 400
  | Raised _ => 500
  end.

Section WithCollaborators.
Context `{Loaders} `{VectorStore}.

(** [upload_document(file)]. Besides the answer, the result lists the
    batches handed to [vector_store.add_documents]. *)
Definition upload_document (settings : Config.Settings) (w : World)
    (upload : UploadFile)
    : World * BinaryIO * list (list Document) * http_outcome :=
  match filename upload with
  | None | Some [] => (w, file upload, [], HTTPException 400)
  | Some name =>
      match DocumentProcessor.__init__ settings None None with
      | Raise e => (w, file upload, [], HTTPException (status_of e))
      | Ok processor =>
          match DocumentProcessor.load_from_uploaded_file w (file upload)
                  name with
          | (w, f, Raise e) => (w, f, [], HTTPException (status_of e))
          | (w, f, Ok chunked_docs) =>
              match connect with
              | Some e => (w, f, [], HTTPException (status_of (Raised e)))
              | None =>
                  match add_documents chunked_docs with
                  | inl e =>
                      (w, f, [chunked_docs],
                       HTTPException (status_of (Raised e)))
                  | inr ids =>
                      (w, f, [chunked_docs],
                       Returned
                         (mkDocumentUploadResponse
                            "Document uploaded and processed successfully"
                            name (Py.len chunked_docs) ids))
                  end
              end
          end
      end
  end.

End WithCollaborators.

End Routes.

(** ** [app/core/embeddings.py] *)

Module Embeddings.

(** An [OpenAIEmbeddings] client, as constructed. *)
Record OpenAIEmbeddings := mkOpenAIEmbeddings {
  model : list N;
  api_key : list N
}.

(** The process: the provider objects constructed so far, each known by
    its position, and the entry [lru_cache] holds for the one argument
    tuple a function without parameters can be called with. *)
Record Process := mkProcess {
  heap : list OpenAIEmbeddings;
  cache : option nat
}.

Definition fresh : Process := mkProcess [] None.

Section WithProvider.
(** Whether the constructor of [OpenAIEmbeddings] rejects a
    configuration. *)
Variable rejects : list N -> list N -> option lib_exn.

(** The body of [get_embedding_model]. *)
Definition construct (settings : Config.Settings) (st : Process)
    : Process * result nat :=
  match rejects (Config.embedding_model settings)
          (Config.openai_api_key settings) with
  | Some e => (st, Raise (Raised e))
  | None =>
      (mkProcess
         (heap st ++ [mkOpenAIEmbeddings (Config.embedding_model settings)
                        (Config.openai_api_key settings)])
         (cache st),
       Ok (length (heap st)))
  end.

(** [get_embedding_model()] under [@lru_cache]: a hit returns the
    stored object; a miss runs the body and stores what it returns,
    and stores nothing when it raises. *)
Definition get_embedding_model (settings : Config.Settings) (st : Process)
    : Process * result nat :=
  match cache st with
  | Some handle => (st, Ok handle)
  | None =>
      match construct settings st with
      | (st, Ok handle) => (mkProcess (heap st) (Some handle), Ok handle)
      | (st, Raise e) => (st, Raise e)
      end
  end.

Record EmbeddingService := mkEmbeddingService {
  self_embedding_model : nat
}.

(** [EmbeddingService.__init__] *)
Definition EmbeddingService_init (settings : Config.Settings) (st : Process)
    : Process * result EmbeddingService :=
  match get_embedding_model settings st with
  | (st, Ok handle) => (st, Ok (mkEmbeddingService handle))
  | (st, Raise e) => (st, Raise e)
  end.

(** A run of [n] calls to [get_embedding_model], with what each
    returned. *)
Fixpoint calls (settings : Config.Settings) (n : nat) (st : Process)
    : Process * list (result nat) :=
  match n with
  | O => (st, [])
  | S n' =>
      let '(st, r) := get_embedding_model settings st in
      let '(st, rs) := calls settings n' st in
      (st, r :: rs)
  end.

(** A run of [n] constructions of an [EmbeddingService], one after the
    other, with what each returned. *)
Fixpoint services (settings : Config.Settings) (n : nat) (st : Process)
    : Process * list (result EmbeddingService) :=
  match n with
  | O => (st, [])
  | S n' =>
      let '(st, r) := EmbeddingService_init settings st in
      let '(st, rs) := services settings n' st in
      (st, r :: rs)
  end.

End WithProvider.

End Embeddings.

(** ** Test doubles

    Stand-ins for the collaborators, used to run the model on concrete
    uploads. *)

Module Demo.

(** A loader in the manner of [TextLoader]: one document holding the
    whole file, with the path as its source. *)
Definition whole_file (files : gmap (list N) (list N)) (path : list N)
    : lib_exn + list Document :=
  match files !! path with
  | Some data => inr [mkDocument data {[ Py.lit "source" := VStr path ]}]
  | None => inl (OtherException "No such file or directory")
  end.

Definition loaders : Loaders :=
  {| PyPDFLoader := whole_file;
     TextLoader := whole_file;
     CSVLoader := whole_file |}.

(** A store that accepts every batch and numbers nothing. *)
Definition store : VectorStore :=
  {| connect := None;
     add_documents := fun docs => inr ((fun _ => []) <$> docs) |}.

Definition settings : Config.Settings :=
  Config.mkSettings 10 3 (Py.lit "text-embedding-3-small") (Py.lit "sk-test").

Definition defaults : Config.Settings :=
  Config.mkSettings 1000 200 (Py.lit "text-embedding-3-small")
    (Py.lit "sk-test").

(** An empty file system, names drawn in alphabet order. *)
Definition world : World :=
  mkWorld ∅ (Py.lit "/tmp") 100 (fun n => n) 0.

Definition upload (text : string) : BinaryIO :=
  mkBinaryIO (Py.lit text) 0 false.

Definition closed_upload : BinaryIO := mkBinaryIO [] 0 true.

Definition processor : DocumentProcessor.t :=
  DocumentProcessor.mk 10 3
    (Splitter.mk 10 3 DocumentProcessor.separators).

Definition never_rejects (model key : list N) : option lib_exn := None.

End Demo.

(** ** The claim of overlapping chunks, as a predicate

    Adjacent chunks [a], [b], both at least [overlap] long, share
    [overlap] characters: the end of [a] is the start of [b]. *)

Definition tail_of (n : nat) (s : list N) : list N := drop (length s - n) s.

Definition overlapping (overlap : nat) (chunks : list (list N)) : Prop :=
  forall (i : nat) (a b : list N),
    chunks !! i = Some a -> chunks !! S i = Some b ->
    (overlap <= length a)%nat -> (overlap <= length b)%nat ->
    tail_of overlap a = take overlap b.

(** ** Substrings, and chunks with their overlap removed *)

(** [chunk] occurs in [text] as a run of consecutive characters. *)
Definition substring (chunk text : list N) : Prop :=
  exists before after, text = before ++ chunk ++ after.

(** The first chunk followed by every later chunk without its first
    [overlap] characters. *)
Definition unoverlap (overlap : nat) (chunks : list (list N)) : list N :=
  match chunks with
  | [] => []
  | first :: rest => first ++ concat (drop overlap <$> rest)
  end.

(** ** Chunks placed on the text

    A placement is an offset and a chunk: the text reads the chunk from
    that offset on. *)

Definition sits_at (text : list N) (placement : nat * list N) : Prop :=
  exists l r, text = l ++ placement.2 ++ r /\ length l = placement.1.

(** The position [p] of the text lies inside a placed chunk. *)
Definition inside (p : nat) (placement : nat * list N) : Prop :=
  (placement.1 <= p < placement.1 + length placement.2)%nat.

(** The chunks can be placed on the text, one placement for each chunk,
    so that every position before [upto] that holds a character other
    than whitespace lies inside one of them. *)
Definition laid_out_upto (upto : nat) (text : list N)
    (chunks : list (list N)) : Prop :=
  exists placements : list (nat * list N),
    snd <$> placements = chunks
    /\ Forall (sits_at text) placements
    /\ forall before c after,
         text = before ++ c :: after -> Py.isspace c = false ->
         (length before < upto)%nat ->
         Exists (inside (length before)) placements.

Definition laid_out (text : list N) (chunks : list (list N)) : Prop :=
  laid_out_upto (length text) text chunks.

(** * Properties *)

(** ** The constructor and its defaults *)

Lemma or_int_nonzero (v d : Z) : v <> 0 -> Py.or_int (Some v) d = v.
Proof.
  intros Hv. unfold Py.or_int.
  destruct (Z.eqb_spec v 0); [contradiction | reflexivity].
Qed.

(** Supplied sizes other than zero are the ones stored. *)
Lemma init_stores_nonzero (settings : Config.Settings) (cs co : Z)
    (self : DocumentProcessor.t) :
  cs <> 0 -> co <> 0 ->
  DocumentProcessor.__init__ settings (Some cs) (Some co) = Ok self ->
  DocumentProcessor.self_chunk_size self = cs
  /\ DocumentProcessor.self_chunk_overlap self = co.
Proof.
  intros Hcs Hco. unfold DocumentProcessor.__init__.
  rewrite !or_int_nonzero by assumption.
  destruct (DocumentProcessor._initialize_text_splitter cs co);
    [intros [= <-]; auto | discriminate].
Qed.

(** Whatever the constructor accepts has a positive chunk size, an
    overlap between zero and that size, and the five separators. *)
Lemma init_valid (settings : Config.Settings) (cs co : option Z)
    (self : DocumentProcessor.t) :
  DocumentProcessor.__init__ settings cs co = Ok self ->
  DocumentProcessor.text_splitter self
    = Splitter.mk (DocumentProcessor.self_chunk_size self)
        (DocumentProcessor.self_chunk_overlap self)
        DocumentProcessor.separators
  /\ 0 < DocumentProcessor.self_chunk_size self
  /\ 0 <= DocumentProcessor.self_chunk_overlap self
       <= DocumentProcessor.self_chunk_size self.
Proof.
  unfold DocumentProcessor.__init__,
    DocumentProcessor._initialize_text_splitter, Splitter.init.
  set (a := Py.or_int cs _). set (b := Py.or_int co _).
  destruct (Z.leb_spec a 0); [discriminate |].
  destruct (Z.ltb_spec b 0); [discriminate |].
  destruct (Z.ltb_spec a b); [discriminate |].
  intros [= <-]. simpl. repeat split; lia.
Qed.

(** C7, at the input where it fails: an overlap of zero, supplied
    explicitly next to a chunk size of 500, is not stored. The processor
    keeps the configured default of 200 instead, because [0 or default] is
    the default. *)
Theorem init_explicit_zero_overlap_replaced :
  DocumentProcessor.__init__ Demo.defaults (Some 500) (Some 0)
  = Ok (DocumentProcessor.mk 500 200
          (Splitter.mk 500 200 DocumentProcessor.separators)).
Proof. reflexivity. Qed.

(** ** Rejecting unsupported extensions *)

(** C8: a filename whose lowercased suffix is not one of the supported
    extensions makes [load_from_uploaded_file] and [process_upload] raise
    the unsupported-extension error, with the file system, the name
    generator and the uploaded stream exactly as they were: no temporary
    file was created and the stream was not read. *)
Theorem unsupported_extension_rejected_before_io `{Loaders}
    (self : DocumentProcessor.t) (w : World) (file : BinaryIO)
    (filename : list N) :
  Py.lower (Path.suffix filename) ∉ DocumentProcessor.SUPPORTED_EXTENSIONS ->
  DocumentProcessor.load_from_uploaded_file w file filename
    = (w, file, Raise (UnsupportedExtension (Py.lower (Path.suffix filename))))
  /\ DocumentProcessor.process_upload self w file filename
    = (w, file, Raise (UnsupportedExtension (Py.lower (Path.suffix filename)))).
Proof.
  intros Hext.
  assert (Hload : DocumentProcessor.load_from_uploaded_file w file filename
    = (w, file, Raise (UnsupportedExtension (Py.lower (Path.suffix filename))))).
  { unfold DocumentProcessor.load_from_uploaded_file.
    destruct (decide _) as [_ | Hin]; [reflexivity | contradiction]. }
  split; [exact Hload |].
  unfold DocumentProcessor.process_upload. now rewrite Hload.
Qed.

Lemma unsupported_extension_rejected_before_io_witness :
  (Py.lower (Path.suffix (Py.lit "notes.docx"))
     ∉ DocumentProcessor.SUPPORTED_EXTENSIONS)
  /\ @DocumentProcessor.load_from_uploaded_file Demo.loaders Demo.world
       (Demo.upload "hello") (Py.lit "notes.docx")
     = (Demo.world, Demo.upload "hello",
        Raise (UnsupportedExtension (Py.lit ".docx"))).
Proof.
  assert (Hext : Py.lower (Path.suffix (Py.lit "notes.docx"))
                   ∉ DocumentProcessor.SUPPORTED_EXTENSIONS).
  { apply (bool_decide_unpack _). vm_compute. exact I. }
  split; [exact Hext |].
  exact (proj1 (@unsupported_extension_rejected_before_io Demo.loaders
                  Demo.processor Demo.world (Demo.upload "hello")
                  (Py.lit "notes.docx") Hext)).
Defined.

(** ** The embedding-model cache *)

Section Cache.
Variable rejects : list N -> list N -> option lib_exn.
Variable settings : Config.Settings.

Local Abbreviation get := (Embeddings.get_embedding_model rejects settings).
Local Abbreviation calls := (Embeddings.calls rejects settings).

(** Once the cache holds a handle, a call returns it and changes
    nothing. *)
Lemma get_hit (st : Embeddings.Process) (h : nat) :
  Embeddings.cache st = Some h -> get st = (st, Ok h).
Proof. intros Hc. unfold Embeddings.get_embedding_model. now rewrite Hc. Qed.

(** A call either raises and leaves the process as it was, or returns
    a handle that is cached from then on. *)
Lemma get_cases (st : Embeddings.Process) :
  (exists e, get st = (st, Raise e))
  \/ (exists st' h, get st = (st', Ok h) /\ Embeddings.cache st' = Some h
        /\ (length (Embeddings.heap st')
             <= length (Embeddings.heap st)
                + (match Embeddings.cache st with Some _ => 0 | None => 1 end))%nat).
Proof.
  unfold Embeddings.get_embedding_model, Embeddings.construct.
  destruct (Embeddings.cache st) as [h |] eqn:Hc.
  - right. exists st, h. repeat split; [assumption | lia].
  - destruct (rejects _ _) as [e |].
    + left. now exists (Raised e).
    + right. eexists _, _. repeat split. simpl. rewrite length_app. simpl. lia.
Qed.

Lemma calls_hit (n : nat) (st : Embeddings.Process) (h : nat) :
  Embeddings.cache st = Some h -> calls n st = (st, replicate n (Ok h)).
Proof.
  intros Hc. induction n as [| n IH]; [reflexivity |].
  simpl. rewrite (get_hit st h Hc), IH. reflexivity.
Qed.

Lemma calls_heap (n : nat) (st : Embeddings.Process) :
  (length (Embeddings.heap (calls n st).1)
   <= length (Embeddings.heap st)
      + (match Embeddings.cache st with Some _ => 0 | None => 1 end))%nat.
Proof.
  revert st. induction n as [| n IH]; intros st; simpl; [lia |].
  destruct (get_cases st) as [[e He] | (st' & h & Hg & Hc & Hlen)].
  - rewrite He. specialize (IH st).
    destruct (calls n st) as [st2 rs]. simpl in *. exact IH.
  - rewrite Hg, (calls_hit n st' h Hc). simpl. exact Hlen.
Qed.

Lemma service_hit (st : Embeddings.Process) (h : nat) :
  Embeddings.cache st = Some h ->
  Embeddings.EmbeddingService_init rejects settings st
  = (st, Ok (Embeddings.mkEmbeddingService h)).
Proof.
  intros Hc. unfold Embeddings.EmbeddingService_init.
  now rewrite (get_hit st h Hc).
Qed.

Lemma services_hit (n : nat) (st : Embeddings.Process) (h : nat) :
  Embeddings.cache st = Some h ->
  Embeddings.services rejects settings n st
  = (st, replicate n (Ok (Embeddings.mkEmbeddingService h))).
Proof.
  intros Hc. induction n as [| n IH]; [reflexivity |].
  simpl. rewrite (service_hit st h Hc), IH. reflexivity.
Qed.

(** C9: a run of calls to [get_embedding_model] constructs at most one
    provider object, and none when the cache is already filled; in a
    process that starts with an empty cache and no providers there is
    therefore never more than one. From any state of the process, once a
    call has returned a handle that handle is cached, every later call
    returns it, and every [EmbeddingService], whether it is created in
    place of that first call or after it, holds that same handle and
    constructs nothing further. *)
Theorem embedding_model_constructed_once (n : nat) (st : Embeddings.Process) :
  (length (Embeddings.heap (calls n Embeddings.fresh).1) <= 1)%nat
  /\ (length (Embeddings.heap (calls n st).1)
      <= length (Embeddings.heap st)
         + match Embeddings.cache st with Some _ => 0 | None => 1 end)%nat
  /\ (forall (st' : Embeddings.Process) (h : nat),
        get st = (st', Ok h) ->
        Embeddings.cache st' = Some h
        /\ calls (S n) st = (st', replicate (S n) (Ok h))
        /\ Embeddings.EmbeddingService_init rejects settings st
           = (st', Ok (Embeddings.mkEmbeddingService h))
        /\ Embeddings.EmbeddingService_init rejects settings st'
           = (st', Ok (Embeddings.mkEmbeddingService h))
        /\ Embeddings.services rejects settings (S n) st
           = (st', replicate (S n) (Ok (Embeddings.mkEmbeddingService h)))).
Proof.
  split; [exact (calls_heap n Embeddings.fresh) |].
  split; [exact (calls_heap n st) |].
  intros st' h Hg.
  destruct (get_cases st) as [[e He] | (st1 & h1 & Hg1 & Hc & _)].
  - rewrite He in Hg. discriminate.
  - rewrite Hg1 in Hg. injection Hg as -> ->.
    assert (Hfirst : Embeddings.EmbeddingService_init rejects settings st
                     = (st', Ok (Embeddings.mkEmbeddingService h)))
      by (unfold Embeddings.EmbeddingService_init; now rewrite Hg1).
    repeat split.
    + exact Hc.
    + simpl. rewrite Hg1, (calls_hit n st' h Hc). reflexivity.
    + exact Hfirst.
    + exact (service_hit st' h Hc).
    + simpl. rewrite Hfirst, (services_hit n st' h Hc). reflexivity.
Qed.

End Cache.

Lemma embedding_model_constructed_once_witness :
  let provider :=
    Embeddings.mkOpenAIEmbeddings (Py.lit "text-embedding-3-small")
      (Py.lit "sk-test") in
  let other :=
    Embeddings.mkOpenAIEmbeddings (Py.lit "another-model") (Py.lit "sk-old") in
  Embeddings.get_embedding_model Demo.never_rejects Demo.settings
    (Embeddings.mkProcess [other; other] None)
  = (Embeddings.mkProcess [other; other; provider] (Some 2%nat), Ok 2%nat)
  /\ Embeddings.calls Demo.never_rejects Demo.settings 3
       (Embeddings.mkProcess [other; other] None)
     = (Embeddings.mkProcess [other; other; provider] (Some 2%nat),
        [Ok 2%nat; Ok 2%nat; Ok 2%nat])
  /\ Embeddings.services Demo.never_rejects Demo.settings 3
       (Embeddings.mkProcess [other; other] None)
     = (Embeddings.mkProcess [other; other; provider] (Some 2%nat),
        [Ok (Embeddings.mkEmbeddingService 2);
         Ok (Embeddings.mkEmbeddingService 2);
         Ok (Embeddings.mkEmbeddingService 2)]).
Proof.
  intros provider other.
  destruct (proj2 (proj2 (embedding_model_constructed_once Demo.never_rejects
                            Demo.settings 2
                            (Embeddings.mkProcess [other; other] None)))
              _ _ eq_refl) as (_ & Hcalls & _ & _ & Hservices).
  split; [reflexivity |]. split; [exact Hcalls | exact Hservices].
Defined.

(** ** Uploads: metadata and the temporary file *)

Lemma split_documents_metadata (sp : Splitter.t) (documents : list Document)
    (d : Document) :
  d ∈ Splitter.split_documents sp documents ->
  exists d0, d0 ∈ documents /\ metadata d = metadata d0.
Proof.
  unfold Splitter.split_documents. intros Hd.
  apply list_elem_of_bind in Hd as (d0 & Hd & Hd0).
  apply list_elem_of_fmap in Hd as (chunk & -> & _).
  now exists d0.
Qed.

Lemma split_documents_content (sp : Splitter.t) (documents : list Document)
    (d : Document) :
  d ∈ Splitter.split_documents sp documents ->
  exists d0, d0 ∈ documents
    /\ page_content d ∈ Splitter.split_text sp (page_content d0).
Proof.
  unfold Splitter.split_documents. intros Hd.
  apply list_elem_of_bind in Hd as (d0 & Hd & Hd0).
  apply list_elem_of_fmap in Hd as (chunk & -> & Hc).
  now exists d0.
Qed.

Section Uploads.
Context `{Loaders}.

(** Whatever [load_from_uploaded_file] returns has been stamped. *)
Lemma load_from_uploaded_file_stamped (w : World) (file : BinaryIO)
    (filename : list N) :
  exists documents,
    returned (DocumentProcessor.load_from_uploaded_file w file filename).2
    = DocumentProcessor.set_source filename <$> documents.
Proof.
  unfold DocumentProcessor.load_from_uploaded_file.
  destruct (decide _); [now exists [] |].
  destruct (tempfile.NamedTemporaryFile w _) as [w1 [tmp_path | e]];
    [| now exists []].
  destruct (read file) as [file1 [data | e]]; [| now exists []].
  simpl. destruct (DocumentProcessor.load_file _ _) as [documents | e];
    [now exists documents | now exists []].
Qed.

Lemma process_upload_returned (self : DocumentProcessor.t) (w : World)
    (file : BinaryIO) (filename : list N) :
  returned (DocumentProcessor.process_upload self w file filename).2
  = DocumentProcessor.split_documents self
      (returned
         (DocumentProcessor.load_from_uploaded_file w file filename).2).
Proof.
  unfold DocumentProcessor.process_upload.
  destruct (DocumentProcessor.load_from_uploaded_file w file filename)
    as [[w1 file1] [documents | e]]; reflexivity.
Qed.

(** C2: every document returned by [load_from_uploaded_file], and
    every chunk returned by [process_upload], carries the uploaded
    filename under the metadata key [source]. *)
Theorem upload_source_is_filename (self : DocumentProcessor.t) (w : World)
    (file : BinaryIO) (filename : list N) :
  Forall (fun d => metadata d !! Py.lit "source" = Some (VStr filename))
    (returned (DocumentProcessor.load_from_uploaded_file w file filename).2)
  /\ Forall (fun d => metadata d !! Py.lit "source" = Some (VStr filename))
       (returned (DocumentProcessor.process_upload self w file filename).2).
Proof.
  destruct (load_from_uploaded_file_stamped w file filename)
    as [documents Hdocs].
  assert (Hloaded :
    Forall (fun d => metadata d !! Py.lit "source" = Some (VStr filename))
      (DocumentProcessor.set_source filename <$> documents)).
  { apply Forall_fmap, Forall_forall. intros d _. simpl.
    apply lookup_insert_eq. }
  split; [now rewrite Hdocs |].
  rewrite process_upload_returned, Hdocs.
  apply Forall_forall. intros d Hd.
  apply split_documents_metadata in Hd as (d0 & Hd0 & ->).
  revert d0 Hd0. now apply Forall_forall.
Qed.

(** The name [tempfile] settles on names no existing file. *)
Lemma mkstemp_fresh (files : gmap (list N) (list N)) (dir pre suf : list N)
    (rng : nat -> nat) (k attempts k' : nat) (file : list N) :
  tempfile._mkstemp_inner files dir pre suf rng k attempts = (k', Some file) ->
  files !! file = None.
Proof.
  revert k. induction attempts as [| n IH]; intros k; simpl; [discriminate |].
  destruct (files !! tempfile.join _ _) eqn:Hlook.
  - apply IH.
  - now intros [= _ <-].
Qed.

(** When the upload can be read (and written out, which the model takes
    for granted), the temporary file is gone again on return, whether the
    loader returned or raised: the file system is the one the call
    started with. *)
Lemma temp_file_removed_after_load (w : World) (file : BinaryIO)
    (filename : list N) :
  Py.lower (Path.suffix filename) ∈ DocumentProcessor.SUPPORTED_EXTENSIONS ->
  closed file = false ->
  fs (DocumentProcessor.load_from_uploaded_file w file filename).1.1 = fs w.
Proof.
  intros Hext Hopen. unfold DocumentProcessor.load_from_uploaded_file.
  destruct (decide _) as [Hnot | _]; [contradiction |].
  unfold tempfile.NamedTemporaryFile, read. rewrite Hopen.
  destruct (tempfile._mkstemp_inner _ _ _ _ _ _ _) as [k [tmp_path |]] eqn:Hmk;
    [| reflexivity].
  apply mkstemp_fresh in Hmk. simpl.
  rewrite insert_insert_eq, delete_insert_eq. now apply delete_id.
Qed.

(** The route hands the vector store what [load_from_uploaded_file]
    returned, when it hands it anything. *)
Lemma upload_document_hands_loaded `{VectorStore}
    (settings : Config.Settings) (w : World) (name : list N)
    (file : BinaryIO) (batch : list Document) :
  batch ∈ (Routes.upload_document settings w
             (Routes.mkUploadFile (Some name) file)).1.2 ->
  (DocumentProcessor.load_from_uploaded_file w file name).2 = Ok batch.
Proof.
  unfold Routes.upload_document. simpl.
  destruct name as [| c name]; [intros Hin; inversion Hin |].
  destruct (DocumentProcessor.__init__ settings None None);
    [| intros Hin; inversion Hin].
  destruct (DocumentProcessor.load_from_uploaded_file w file (c :: name))
    as [[w1 file1] [documents | e]]; [| intros Hin; inversion Hin].
  destruct connect; [intros Hin; inversion Hin |].
  destruct (add_documents documents); simpl;
    intros Hin; apply list_elem_of_singleton in Hin; now subst.
Qed.

End Uploads.

(** C3, at an input where it fails: the upload stream is closed, so
    [file.read()] raises inside the [with] block. The temporary file has
    been created by then and the [try]/[finally] that removes it has not
    been entered: the error reaches the caller and the empty temporary
    file stays on disk. *)
Theorem temp_file_left_behind_when_read_fails :
  let '(w, _, outcome) :=
    @DocumentProcessor.load_from_uploaded_file Demo.loaders Demo.world
      Demo.closed_upload (Py.lit "notes.txt") in
  outcome = Raise (Raised (ValueError "I/O operation on closed file."))
  /\ fs Demo.world !! Py.lit "/tmp/tmpabcdefgh.txt" = None
  /\ fs w !! Py.lit "/tmp/tmpabcdefgh.txt" = Some [].
Proof. vm_compute. repeat split. Qed.

(** C6, at an input where it fails: for an upload of seventeen
    characters and a chunk size of ten, [upload_document] hands the vector
    store the one unsplit document that [load_from_uploaded_file]
    returned, while [process_upload] returns two chunks. *)
Theorem upload_route_hands_unsplit_documents :
  let doc text :=
    mkDocument (Py.lit text)
      {[ Py.lit "source" := VStr (Py.lit "notes.txt") ]} in
  DocumentProcessor.__init__ Demo.settings None None = Ok Demo.processor
  /\ (@Routes.upload_document Demo.loaders Demo.store Demo.settings Demo.world
        (Routes.mkUploadFile (Some (Py.lit "notes.txt"))
           (Demo.upload "aaaaaaaa bbbbbbbb"))).1.2
     = [[doc "aaaaaaaa bbbbbbbb"%string]]
  /\ (@DocumentProcessor.process_upload Demo.loaders Demo.processor Demo.world
        (Demo.upload "aaaaaaaa bbbbbbbb") (Py.lit "notes.txt")).2
     = Ok [doc "aaaaaaaa"%string; doc "bbbbbbbb"%string].
Proof. vm_compute. repeat split. Qed.

(** ** Suffixes and the dispatch on them *)

Lemma split_char_nonempty (c : N) (s : list N) : Py.split_char c s <> [].
Proof.
  destruct s as [| a s]; simpl; [discriminate |].
  destruct (a =? c)%N; [discriminate |].
  destruct (Py.split_char c s); discriminate.
Qed.

Lemma split_char_absent (c : N) (s : list N) :
  c ∉ s -> Py.split_char c s = [s].
Proof.
  induction s as [| a s IH]; intros Hc; simpl; [reflexivity |].
  apply not_elem_of_cons in Hc as [Hne Hc].
  destruct (N.eqb_spec a c) as [-> | _]; [contradiction |].
  now rewrite (IH Hc).
Qed.

(** Splitting on a character distributes over an occurrence of it. *)
Lemma split_char_app (c : N) (a b : list N) :
  Py.split_char c (a ++ c :: b) = Py.split_char c a ++ Py.split_char c b.
Proof.
  induction a as [| x a IH]; simpl.
  - now rewrite N.eqb_refl.
  - rewrite IH. destruct (x =? c)%N; [reflexivity |].
    pose proof (split_char_nonempty c a) as Hne.
    destruct (Py.split_char c a); [contradiction | reflexivity].
Qed.

Lemma rfind_absent (c : N) (s : list N) : c ∉ s -> Py.rfind c s = None.
Proof.
  induction s as [| a s IH]; intros Hc; simpl; [reflexivity |].
  apply not_elem_of_cons in Hc as [Hne Hc]. rewrite (IH Hc).
  destruct (N.eqb_spec a c); [congruence | reflexivity].
Qed.

Lemma rfind_last (c : N) (a b : list N) :
  c ∉ b -> Py.rfind c (a ++ c :: b) = Some (length a).
Proof.
  intros Hc. induction a as [| x a IH]; simpl.
  - now rewrite (rfind_absent c b Hc), N.eqb_refl.
  - now rewrite IH.
Qed.

(** The last component of [dir/f] is [f]. *)
Lemma name_join (dir f : list N) :
  Path.slash ∉ f -> f <> [] -> f <> [Path.dot] ->
  Path.name (tempfile.join dir f) = f.
Proof.
  intros Hslash Hne Hdot.
  assert (Hlast : forall pre, Path.name (pre ++ Path.slash :: f) = f).
  { intros pre. unfold Path.name, Path.parts.
    rewrite split_char_app, (split_char_absent _ f Hslash), filter_app.
    rewrite (filter_cons_True _ f []) by (split; assumption).
    now rewrite filter_nil, last_snoc. }
  unfold tempfile.join. destruct (last dir) as [c |] eqn:Hl.
  - destruct (N.eqb_spec c Path.slash) as [-> | _]; [| apply Hlast].
    apply last_Some in Hl as [pre ->]. rewrite <- app_assoc. apply Hlast.
  - unfold Path.name, Path.parts.
    rewrite (split_char_absent _ f Hslash).
    now rewrite (filter_cons_True _ f []) by (split; assumption).
Qed.

(** The suffix of a name that ends in a dot and dot-free letters. *)
Lemma suffix_of_name (path a b : list N) :
  Path.name path = a ++ Path.dot :: b ->
  Path.dot ∉ b -> a <> [] -> b <> [] ->
  Path.suffix path = Path.dot :: b.
Proof.
  intros Hname Hdot Ha Hb. unfold Path.suffix. rewrite Hname.
  rewrite (rfind_last _ a b Hdot), length_app. simpl.
  destruct a as [| x a]; [contradiction |].
  destruct b as [| y b]; [contradiction |]. simpl.
  destruct (Nat.ltb_spec (S (length a)) (length a + S (S (length b)) - 0));
    [| lia].
  now rewrite drop_app_length.
Qed.

(** A character that differs from each character of a literal is not in
    it. *)
Ltac not_in_literal :=
  let Hin := fresh "Hin" in
  intros Hin;
  repeat (apply elem_of_cons in Hin as [Hin | Hin]; [discriminate |]);
  inversion Hin.

Lemma candidate_chars (rng : nat -> nat) (k : nat) :
  Forall (fun c => c <> Path.slash /\ c <> Path.dot) (tempfile.candidate rng k).
Proof.
  assert (Halpha :
    Forall (fun c => c <> Path.slash /\ c <> Path.dot) tempfile.characters).
  { repeat constructor; discriminate. }
  unfold tempfile.candidate. apply Forall_fmap, Forall_forall. intros i _.
  simpl. destruct (tempfile.characters !! _) as [c |] eqn:Hc; simpl.
  - apply list_elem_of_lookup_2 in Hc. revert c Hc. now apply Forall_forall.
  - split; discriminate.
Qed.

Lemma supported_cases (extension : list N) :
  extension ∈ DocumentProcessor.SUPPORTED_EXTENSIONS ->
  extension = Py.lit ".txt" \/ extension = Py.lit ".pdf"
  \/ extension = Py.lit ".csv".
Proof.
  unfold DocumentProcessor.SUPPORTED_EXTENSIONS.
  rewrite !elem_of_union, !elem_of_singleton. tauto.
Qed.

(** A temporary file created with a supported extension as its suffix has
    that extension as its [Path] suffix. *)
Lemma suffix_temp_path (dir : list N) (rng : nat -> nat) (k : nat)
    (extension : list N) :
  extension ∈ DocumentProcessor.SUPPORTED_EXTENSIONS ->
  Path.suffix
    (tempfile.join dir (Py.lit "tmp" ++ tempfile.candidate rng k ++ extension))
  = extension.
Proof.
  intros Hext. pose proof (candidate_chars rng k) as Hcand.
  assert (Hshape : exists b, extension = Path.dot :: b /\ b <> []
                     /\ (Path.dot ∉ b) /\ (Path.slash ∉ b))
    by (destruct (supported_cases _ Hext) as [-> | [-> | ->]];
        eexists; (split; [reflexivity |]); repeat split;
        try discriminate; not_in_literal).
  destruct Hshape as (b & -> & Hb & Hdot & Hslash).
  set (stem := Py.lit "tmp" ++ tempfile.candidate rng k).
  apply (suffix_of_name _ stem b); try assumption.
  - rewrite app_assoc. fold stem. apply name_join.
    + rewrite !elem_of_app, elem_of_cons. unfold stem.
      rewrite elem_of_app. intros [[Hin | Hin] | [Hin | Hin]].
      * revert Hin. not_in_literal.
      * eapply Forall_forall in Hcand; [| exact Hin]. now destruct Hcand.
      * discriminate.
      * contradiction.
    + now destruct stem.
    + unfold stem. simpl. discriminate.
  - discriminate.
Qed.

Lemma mkstemp_shape (files : gmap (list N) (list N)) (dir pre suf : list N)
    (rng : nat -> nat) (k attempts k' : nat) (file : list N) :
  tempfile._mkstemp_inner files dir pre suf rng k attempts = (k', Some file) ->
  exists j, file = tempfile.join dir (pre ++ tempfile.candidate rng j ++ suf).
Proof.
  revert k. induction attempts as [| n IH]; intros k; simpl; [discriminate |].
  destruct (files !! tempfile.join _ _).
  - apply IH.
  - intros [= _ <-]. now exists k.
Qed.

Lemma lower_supported (extension : list N) :
  extension ∈ DocumentProcessor.SUPPORTED_EXTENSIONS ->
  Py.lower extension = extension.
Proof.
  intros Hext. now destruct (supported_cases _ Hext) as [-> | [-> | ->]].
Qed.

Section Dispatch.
Context `{Loaders}.

Lemma lift_not_unsupported {A} (r : lib_exn + A) (extension : list N) :
  lift r <> Raise (UnsupportedExtension extension).
Proof. destruct r; discriminate. Qed.

(** The entries of the dict [loaders], and what they can raise. *)
Lemma loaders_supported (extension : list N) :
  extension ∈ DocumentProcessor.SUPPORTED_EXTENSIONS ->
  exists loader,
    DocumentProcessor.loaders !! extension = Some loader
    /\ forall files path e,
         loader files path <> Raise (UnsupportedExtension e).
Proof.
  intros Hext.
  destruct (supported_cases _ Hext) as [-> | [-> | ->]].
  - exists DocumentProcessor.load_text. split; [reflexivity |].
    intros. apply lift_not_unsupported.
  - exists DocumentProcessor.load_pdf. split; [reflexivity |].
    intros. apply lift_not_unsupported.
  - exists DocumentProcessor.load_csv. split; [reflexivity |].
    intros. apply lift_not_unsupported.
Qed.

Lemma load_file_dispatch (files : gmap (list N) (list N))
    (file_path extension : list N)
    (loader : gmap (list N) (list N) -> list N -> result (list Document)) :
  Py.lower (Path.suffix file_path) = extension ->
  extension ∈ DocumentProcessor.SUPPORTED_EXTENSIONS ->
  DocumentProcessor.loaders !! extension = Some loader ->
  DocumentProcessor.load_file files file_path = loader files file_path.
Proof.
  intros Hsuf Hext Hlook. unfold DocumentProcessor.load_file.
  rewrite Hsuf. destruct (decide _) as [Hnot | _]; [contradiction |].
  now rewrite Hlook.
Qed.

(** C10: the check on the extension ignores case. A path whose suffix
    lowercases to a supported extension is loaded by the entry of
    [loaders] for the lowercased extension ([.pdf] is [load_pdf], [.txt]
    is [load_text], [.csv] is [load_csv]), and no unsupported-extension
    error is raised. The same holds for an upload under such a filename:
    once the temporary file exists and the stream has been read, the
    documents are those of that loader on the temporary file, stamped
    with the filename. *)
Theorem extension_check_ignores_case (files : gmap (list N) (list N))
    (file_path : list N) (w : World) (file : BinaryIO) (filename : list N) :
  (DocumentProcessor.loaders !! Py.lit ".pdf"
     = Some DocumentProcessor.load_pdf
   /\ DocumentProcessor.loaders !! Py.lit ".txt"
     = Some DocumentProcessor.load_text
   /\ DocumentProcessor.loaders !! Py.lit ".csv"
     = Some DocumentProcessor.load_csv)
  /\ (Py.lower (Path.suffix file_path)
        ∈ DocumentProcessor.SUPPORTED_EXTENSIONS ->
      exists loader,
        DocumentProcessor.loaders !! Py.lower (Path.suffix file_path)
          = Some loader
        /\ DocumentProcessor.load_file files file_path
           = loader files file_path
        /\ forall e, DocumentProcessor.load_file files file_path
                     <> Raise (UnsupportedExtension e))
  /\ (Py.lower (Path.suffix filename)
        ∈ DocumentProcessor.SUPPORTED_EXTENSIONS ->
      (forall e,
         (DocumentProcessor.load_from_uploaded_file w file filename).2
         <> Raise (UnsupportedExtension e))
      /\ forall w1 tmp_path file1 data,
           tempfile.NamedTemporaryFile w (Py.lower (Path.suffix filename))
             = (w1, Ok tmp_path) ->
           read file = (file1, Ok data) ->
           exists loader,
             DocumentProcessor.loaders !! Py.lower (Path.suffix filename)
               = Some loader
             /\ DocumentProcessor.load_from_uploaded_file w file filename
                = (unlink (write_file w1 tmp_path data) tmp_path, file1,
                   match loader (fs (write_file w1 tmp_path data)) tmp_path
                   with
                   | Ok documents =>
                       Ok (DocumentProcessor.set_source filename
                             <$> documents)
                   | Raise e => Raise e
                   end)).
Proof.
  split; [repeat split |]. split.
  - intros Hext.
    destruct (loaders_supported _ Hext) as (loader & Hlook & Hraise).
    exists loader.
    rewrite (load_file_dispatch files file_path _ loader eq_refl Hext Hlook).
    auto.
  - intros Hext.
    destruct (loaders_supported _ Hext) as (loader & Hlook & Hraise).
    assert (Hload : forall w1 tmp_path data,
      tempfile.NamedTemporaryFile w (Py.lower (Path.suffix filename))
        = (w1, Ok tmp_path) ->
      DocumentProcessor.load_file (fs (write_file w1 tmp_path data)) tmp_path
      = loader (fs (write_file w1 tmp_path data)) tmp_path).
    { intros w1 tmp_path data Htmp.
      apply (load_file_dispatch _ _ (Py.lower (Path.suffix filename)));
        [| assumption | assumption].
      unfold tempfile.NamedTemporaryFile in Htmp.
      destruct (tempfile._mkstemp_inner _ _ _ _ _ _ _) as [k [p |]] eqn:Hmk;
        [| discriminate].
      injection Htmp as _ <-.
      apply mkstemp_shape in Hmk as [j ->].
      rewrite (suffix_temp_path _ _ _ _ Hext).
      now apply lower_supported. }
    unfold DocumentProcessor.load_from_uploaded_file.
    destruct (decide _) as [Hnot | _]; [contradiction |].
    destruct (tempfile.NamedTemporaryFile w _) as [w1 [tmp_path | e1]] eqn:Htmp.
    + destruct (read file) as [file1 [data | e2]] eqn:Hread.
      * rewrite (Hload w1 tmp_path data eq_refl). split.
        -- intros e. simpl.
           destruct (loader _ _) eqn:Hl; [discriminate |].
           intros [= ->]. now apply Hraise in Hl.
        -- intros ? ? ? ? [= <- <-] [= <- <-]. now exists loader.
      * split; [| intros ? ? ? ? _ [=]]. intros e. simpl.
        unfold read in Hread. destruct (closed file); [| discriminate].
        injection Hread as _ <-. discriminate.
    + split; [| intros ? ? ? ? [=]]. intros e. simpl.
      unfold tempfile.NamedTemporaryFile in Htmp.
      destruct (tempfile._mkstemp_inner _ _ _ _ _ _ _) as [k [p |]];
        [discriminate |].
      injection Htmp as _ <-. discriminate.
Qed.

End Dispatch.

Lemma extension_check_ignores_case_witness :
  (Py.lower (Path.suffix (Py.lit "/data/REPORT.PDF"))
     ∈ DocumentProcessor.SUPPORTED_EXTENSIONS)
  /\ (exists loader,
        @DocumentProcessor.loaders Demo.loaders
          !! Py.lower (Path.suffix (Py.lit "/data/REPORT.PDF")) = Some loader
        /\ @DocumentProcessor.load_file Demo.loaders ∅
             (Py.lit "/data/REPORT.PDF")
           = loader ∅ (Py.lit "/data/REPORT.PDF")
        /\ forall e,
             @DocumentProcessor.load_file Demo.loaders ∅
               (Py.lit "/data/REPORT.PDF")
             <> Raise (UnsupportedExtension e))
  /\ tempfile.NamedTemporaryFile Demo.world
       (Py.lower (Path.suffix (Py.lit "REPORT.PDF")))
     = (mkWorld (<[Py.lit "/tmp/tmpabcdefgh.pdf" := []]> ∅) (Py.lit "/tmp")
          100 (fun n => n) 1,
        Ok (Py.lit "/tmp/tmpabcdefgh.pdf"))
  /\ read (Demo.upload "x") = (mkBinaryIO (Py.lit "x") 1 false, Ok (Py.lit "x"))
  /\ exists loader,
       @DocumentProcessor.loaders Demo.loaders
         !! Py.lower (Path.suffix (Py.lit "REPORT.PDF")) = Some loader
       /\ (@DocumentProcessor.load_from_uploaded_file Demo.loaders Demo.world
             (Demo.upload "x") (Py.lit "REPORT.PDF")).2
          = match loader
                    (<[Py.lit "/tmp/tmpabcdefgh.pdf" := Py.lit "x"]>
                       (<[Py.lit "/tmp/tmpabcdefgh.pdf" := []]> ∅))
                    (Py.lit "/tmp/tmpabcdefgh.pdf")
            with
            | Ok documents =>
                Ok (DocumentProcessor.set_source (Py.lit "REPORT.PDF")
                      <$> documents)
            | Raise e => Raise e
            end.
Proof.
  assert (Hext : forall path,
            Py.lower (Path.suffix path) = Py.lit ".pdf" ->
            Py.lower (Path.suffix path)
              ∈ DocumentProcessor.SUPPORTED_EXTENSIONS).
  { intros path ->. apply (bool_decide_unpack _). vm_compute. exact I. }
  pose proof (@extension_check_ignores_case Demo.loaders ∅
                (Py.lit "/data/REPORT.PDF") Demo.world (Demo.upload "x")
                (Py.lit "REPORT.PDF")) as (_ & Hfile & Hupload).
  split; [exact (Hext (Py.lit "/data/REPORT.PDF") eq_refl) |].
  split; [exact (Hfile (Hext (Py.lit "/data/REPORT.PDF") eq_refl)) |].
  split; [reflexivity |]. split; [reflexivity |].
  destruct (proj2 (Hupload (Hext (Py.lit "REPORT.PDF") eq_refl))
              _ _ _ _ eq_refl eq_refl)
    as (loader & Hlook & Hload).
  exists loader. split; [exact Hlook |]. now rewrite Hload.
Defined.

(** ** Lengths of strings *)

Lemma len_nil {A} : Py.len (@nil A) = 0.
Proof. reflexivity. Qed.

Lemma len_app {A} (a b : list A) : Py.len (a ++ b) = Py.len a + Py.len b.
Proof. unfold Py.len. rewrite length_app. lia. Qed.

Lemma len_nonneg {A} (a : list A) : 0 <= Py.len a.
Proof. unfold Py.len. lia. Qed.

Lemma lstrip_length (s : list N) : (length (Py.lstrip s) <= length s)%nat.
Proof.
  induction s as [| c s IH]; simpl; [lia |].
  destruct (Py.isspace c); simpl; lia.
Qed.

Lemma strip_len (s : list N) : Py.len (Py.strip s) <= Py.len s.
Proof.
  unfold Py.len, Py.strip, Py.rstrip.
  pose proof (lstrip_length (reverse (Py.lstrip (reverse s)))) as H1.
  pose proof (lstrip_length (reverse s)) as H2.
  rewrite !length_reverse in *. lia.
Qed.

Lemma join_empty_separator (parts : list (list N)) :
  Py.join [] parts = concat parts.
Proof.
  induction parts as [| x [| y parts] IH]; simpl in *;
    [reflexivity | now rewrite app_nil_r | now rewrite IH].
Qed.

Lemma sep_if_longer_zero (current_doc : list (list N)) (k : nat) :
  Splitter.sep_if_longer 0 current_doc k = 0.
Proof. unfold Splitter.sep_if_longer. now destruct (_ <? _)%nat. Qed.

(** ** Chunks stay within the chunk size *)

Section ChunkSize.
Variable self : Splitter.t.
Hypothesis size_positive : 0 < Splitter._chunk_size self.

Local Abbreviation within :=
  (fun s : list N => Py.len s <= Splitter._chunk_size self).

Lemma join_docs_len (current_doc : list (list N)) (text : list N) :
  Splitter._join_docs current_doc [] = Some text ->
  Py.len text <= Py.len (concat current_doc).
Proof.
  unfold Splitter._join_docs. rewrite join_empty_separator.
  pose proof (strip_len (concat current_doc)) as Hs.
  destruct (Py.strip _); [discriminate | now intros [= <-]].
Qed.

Lemma append_doc_within (docs current_doc : list (list N)) :
  Forall within docs ->
  Py.len (concat current_doc) <= Splitter._chunk_size self ->
  Forall within
    (Splitter.append_doc docs (Splitter._join_docs current_doc [])).
Proof.
  intros Hdocs Hcur. unfold Splitter.append_doc.
  destruct (Splitter._join_docs current_doc []) as [text |] eqn:Hj;
    [| assumption].
  apply Forall_app. split; [assumption |]. constructor; [| constructor].
  apply join_docs_len in Hj. simpl. lia.
Qed.

(** The pop loop keeps [total] the length of what is left, and leaves
    room for the next piece unless nothing is left. *)
Lemma pop_loop_total (_len : Z) (current_doc : list (list N)) :
  let out :=
    Splitter.pop_loop self 0 _len current_doc
      (Py.len (concat current_doc)) in
  out.2 = Py.len (concat out.1)
  /\ (out.2 + _len <= Splitter._chunk_size self \/ out.2 = 0).
Proof.
  induction current_doc as [| d0 rest IH]; simpl.
  - split; [reflexivity | now right].
  - rewrite !sep_if_longer_zero, len_app.
    destruct (_ || _) eqn:Hcond.
    + replace (Py.len d0 + Py.len (concat rest) - (Py.len d0 + 0))
        with (Py.len (concat rest)) by lia.
      exact IH.
    + simpl. rewrite len_app. split; [reflexivity |].
      apply orb_false_iff in Hcond as [_ Hroom].
      pose proof (len_nonneg d0). pose proof (len_nonneg (concat rest)).
      apply andb_false_iff in Hroom as [Hroom | Hroom];
        [apply Z.ltb_ge in Hroom | apply Z.ltb_ge in Hroom]; lia.
Qed.

(** The condition of the pop loop is false on an empty [current_doc]
    whenever the overlap is not negative, so the loop never indexes
    into an empty list. *)
Lemma pop_condition_empty (_len : Z) :
  0 <= Splitter._chunk_overlap self ->
  (Splitter._chunk_overlap self <? 0)
  || ((Splitter._chunk_size self <? 0 + _len + 0) && (0 <? 0)) = false.
Proof.
  intros Hov. apply orb_false_iff. split; [now apply Z.ltb_ge |].
  now rewrite andb_false_r.
Qed.

Lemma merge_loop_within (splits docs current_doc : list (list N)) :
  Forall within splits -> Forall within docs ->
  Py.len (concat current_doc) <= Splitter._chunk_size self ->
  Forall within
    (Splitter.merge_loop self [] splits docs current_doc
       (Py.len (concat current_doc))).
Proof.
  revert docs current_doc.
  induction splits as [| d splits IH]; intros docs current_doc Hsplits Hdocs Hcur;
    simpl.
  - now apply append_doc_within.
  - apply Forall_cons in Hsplits as [Hd Hsplits].
    change (Py.len (@nil N)) with 0. rewrite sep_if_longer_zero.
    assert (Hnext : forall docs' cur',
      Forall within docs' ->
      Py.len (concat cur') + Py.len d <= Splitter._chunk_size self ->
      Forall within
        (Splitter.merge_loop self [] splits docs' (cur' ++ [d])
           (Py.len (concat cur')
            + (Py.len d + Splitter.sep_if_longer 0 (cur' ++ [d]) 1)))).
    { intros docs' cur' Hdocs' Hroom. rewrite sep_if_longer_zero.
      replace (Py.len (concat cur') + (Py.len d + 0))
        with (Py.len (concat (cur' ++ [d])))
        by (rewrite concat_app, len_app; simpl; rewrite app_nil_r; lia).
      apply IH; [assumption | assumption |].
      rewrite concat_app, len_app. simpl. rewrite app_nil_r. lia. }
    destruct (Z.ltb_spec (Splitter._chunk_size self)
                (Py.len (concat current_doc) + Py.len d + 0)) as [Hfull | Hfits].
    + destruct current_doc as [| d0 rest].
      * apply Hnext; [assumption |]. simpl. rewrite len_nil. simpl in Hd. lia.
      * pose proof (pop_loop_total (Py.len d) (d0 :: rest)) as [Htot Hroom].
        destruct (Splitter.pop_loop self 0 (Py.len d) (d0 :: rest) _)
          as [cur' total'] eqn:Hpop.
        simpl in Htot, Hroom. subst total'.
        apply Hnext; [now apply append_doc_within |].
        pose proof (len_nonneg d). simpl in Hd. lia.
    + apply Hnext; [assumption | lia].
Qed.

Lemma merge_splits_within (splits : list (list N)) :
  Forall within splits ->
  Forall within (Splitter._merge_splits self splits []).
Proof.
  intros Hsplits. unfold Splitter._merge_splits.
  change 0 with (Py.len (concat (@nil (list N)))).
  apply merge_loop_within; [assumption | constructor |].
  simpl. rewrite len_nil. lia.
Qed.

End ChunkSize.

Section SplitBound.
Variable self : Splitter.t.
Hypothesis size_positive : 0 < Splitter._chunk_size self.

Local Abbreviation within :=
  (fun s : list N => Py.len s <= Splitter._chunk_size self).

(** Where the loop of [_split_text] cannot recurse, it emits oversized
    pieces as they are; this is harmless when pieces are single
    characters. *)
Local Abbreviation recursion_within recurse splits :=
  (match recurse with
   | Some f => forall s : list N, Forall within (f s)
   | None => Forall (fun s : list N => Py.len s <= 1) splits
   end).

Lemma split_loop_within (recurse : option (list N -> list (list N)))
    (splits final_chunks _good_splits : list (list N)) :
  recursion_within recurse splits ->
  Forall within final_chunks -> Forall within _good_splits ->
  Forall within
    (Splitter.split_loop self recurse splits final_chunks _good_splits).
Proof.
  revert final_chunks _good_splits.
  induction splits as [| s splits IH]; intros final good Hrec Hfinal Hgood;
    simpl.
  - destruct good; [assumption |].
    apply Forall_app. split; [assumption |].
    now apply merge_splits_within.
  - assert (Hrec' : recursion_within recurse splits).
    { destruct recurse; simpl in *; [assumption |].
      now apply Forall_cons in Hrec as [_ Hrec]. }
    destruct (Z.ltb_spec (Py.len s) (Splitter._chunk_size self)) as [Hs | Hs].
    + apply IH; [assumption | assumption |].
      apply Forall_app. split; [assumption |].
      constructor; [simpl; lia | constructor].
    + apply IH; [assumption | | constructor].
      assert (Hflushed : Forall within
        match good with
        | [] => final
        | _ :: _ => final ++ Splitter._merge_splits self good []
        end).
      { destruct good; [assumption |].
        apply Forall_app. split; [assumption |].
        now apply merge_splits_within. }
      destruct recurse as [f |]; simpl in Hrec.
      * apply Forall_app. split; [assumption | apply Hrec].
      * apply Forall_app. split; [assumption |].
        apply Forall_cons in Hrec as [Hone _].
        constructor; [simpl; lia | constructor].
Qed.

Lemma characters_are_short (text : list N) :
  Forall (fun s : list N => Py.len s <= 1)
    (Splitter._split_text_with_regex text []).
Proof.
  unfold Splitter._split_text_with_regex. apply Forall_forall.
  intros s Hs. apply list_elem_of_filter in Hs as [_ Hs].
  apply list_elem_of_fmap in Hs as (c & -> & _).
  unfold Py.len. simpl. lia.
Qed.

(** With the empty string as its last separator, [_split_text] never
    emits a chunk longer than the chunk size. *)
Lemma split_text_rec_within (s : list N) (rest : list (list N))
    (text : list N) :
  last (s :: rest) = Some [] ->
  Forall within (Splitter._split_text self s rest text).
Proof.
  revert s text. induction rest as [| s' rest' IH]; intros s text Hlast.
  - injection Hlast as ->. simpl. unfold Splitter.split_with.
    apply split_loop_within; [| constructor | constructor].
    apply characters_are_short.
  - simpl. destruct s as [| c s].
    + unfold Splitter.split_with.
      apply split_loop_within; [| constructor | constructor].
      apply characters_are_short.
    + destruct (Py.contains (c :: s) text).
      * unfold Splitter.split_with.
        apply split_loop_within; [| constructor | constructor].
        intros piece. now apply IH.
      * now apply IH.
Qed.

End SplitBound.

Lemma split_documents_within (self : Splitter.t) (documents : list Document) :
  0 < Splitter._chunk_size self ->
  last (Splitter._separators self) = Some [] ->
  Forall (fun d => Py.len (page_content d) <= Splitter._chunk_size self)
    (Splitter.split_documents self documents).
Proof.
  intros Hsize Hlast. apply Forall_forall. intros d Hd.
  apply split_documents_content in Hd as (d0 & _ & Hd).
  unfold Splitter.split_text in Hd.
  destruct (Splitter._separators self) as [| s rest]; [inversion Hd |].
  pose proof (split_text_rec_within self Hsize s rest (page_content d0) Hlast)
    as Hall.
  eapply Forall_forall in Hall; [exact Hall | exact Hd].
Qed.

(** C1: for a processor the constructor accepted, no chunk returned by
    [process_file] or [process_upload] is longer than the stored chunk
    size. The separator list ends in the empty string, which cuts between
    any two characters, so no token is indivisible and the bound has no
    exception. *)
Theorem chunks_within_chunk_size `{Loaders} (settings : Config.Settings)
    (chunk_size chunk_overlap : option Z) (self : DocumentProcessor.t)
    (files : gmap (list N) (list N)) (file_path : list N) (w : World)
    (file : BinaryIO) (filename : list N) :
  DocumentProcessor.__init__ settings chunk_size chunk_overlap = Ok self ->
  Forall (fun d => Py.len (page_content d)
                   <= DocumentProcessor.self_chunk_size self)
    (returned (DocumentProcessor.process_file self files file_path))
  /\ Forall (fun d => Py.len (page_content d)
                      <= DocumentProcessor.self_chunk_size self)
       (returned (DocumentProcessor.process_upload self w file filename).2).
Proof.
  intros Hinit. apply init_valid in Hinit as (Hsplitter & Hsize & _).
  assert (Hsplit : forall documents,
    Forall (fun d => Py.len (page_content d)
                     <= DocumentProcessor.self_chunk_size self)
      (DocumentProcessor.split_documents self documents)).
  { intros documents. unfold DocumentProcessor.split_documents.
    rewrite Hsplitter. now apply (split_documents_within (Splitter.mk _ _ _)). }
  split.
  - unfold DocumentProcessor.process_file.
    destruct (DocumentProcessor.load_file files file_path); simpl;
      [apply Hsplit | constructor].
  - rewrite process_upload_returned. apply Hsplit.
Qed.

Lemma chunks_within_chunk_size_witness :
  DocumentProcessor.__init__ Demo.settings None None = Ok Demo.processor
  /\ Forall (fun d => Py.len (page_content d) <= 10)
       (returned
          (@DocumentProcessor.process_upload Demo.loaders Demo.processor
             Demo.world (Demo.upload "abcdefghijklmnopqrstuvwxyz")
             (Py.lit "letters.txt")).2).
Proof.
  split; [reflexivity |].
  exact (proj2 (@chunks_within_chunk_size Demo.loaders Demo.settings None None
                  Demo.processor ∅ [] Demo.world
                  (Demo.upload "abcdefghijklmnopqrstuvwxyz")
                  (Py.lit "letters.txt") eq_refl)).
Defined.

(** ** Splitting text that already fits *)

Lemma startswith_prefix (p s : list N) :
  Py.startswith p s = true -> exists rest, s = p ++ rest.
Proof.
  revert s. induction p as [| a p IH]; intros s Hs; [now exists s |].
  destruct s as [| b s]; [discriminate |]. simpl in Hs.
  apply andb_true_iff in Hs as [Hab Hs]. apply N.eqb_eq in Hab as ->.
  destruct (IH s Hs) as [rest ->]. now exists rest.
Qed.

(** Consuming the rest of a match skips exactly its characters. *)
Lemma re_split_group_skip (sep pre cur rest : list N) :
  Py.re_split_group sep (length pre) cur (pre ++ rest)
  = Py.re_split_group sep 0 cur rest.
Proof. induction pre as [| c pre IH]; simpl; [reflexivity | exact IH]. Qed.

(** Gluing the captured separators back on loses nothing: the pieces of
    [re.split] concatenate to the text. *)
Lemma re_split_group_concat (sep : list N) (n : nat) :
  sep <> [] ->
  forall text cur, (length text <= n)%nat ->
  exists first rest,
    Py.re_split_group sep 0 cur text = first :: rest
    /\ first ++ concat (Splitter.glue_pairs rest) = reverse cur ++ text.
Proof.
  intros Hsep. induction n as [| n IH]; intros text cur Hlen.
  - destruct text; [| simpl in Hlen; lia].
    exists (reverse cur), []. now rewrite !app_nil_r.
  - destruct text as [| c text'].
    { exists (reverse cur), []. now rewrite !app_nil_r. }
    simpl. destruct (Py.startswith sep (c :: text')) eqn:Hstart.
    + apply startswith_prefix in Hstart as [r Hr].
      destruct sep as [| c0 sep']; [contradiction |].
      injection Hr as <- ->. simpl. rewrite Nat.sub_0_r.
      exists (reverse cur).
      destruct (IH r [] ltac:(simpl in Hlen; rewrite length_app in Hlen; lia))
        as (first' & rest' & Hsplit & Hcat).
      rewrite re_split_group_skip, Hsplit.
      eexists. split; [reflexivity |]. simpl.
      rewrite <- app_assoc, Hcat. reflexivity.
    + destruct (IH text' (c :: cur) ltac:(simpl in Hlen; lia))
        as (first & rest & Hsplit & Hcat).
      exists first, rest. split; [assumption |].
      rewrite Hcat, reverse_cons, <- app_assoc. reflexivity.
Qed.

(** [re.split] with one capturing group returns an odd number of
    strings, so [glue_pairs] pairs up all that follows the first. *)
Lemma re_split_group_odd (sep text cur : list N) (skip : nat) :
  Nat.Odd (length (Py.re_split_group sep skip cur text)).
Proof.
  revert skip cur. induction text as [| c text IH]; intros skip cur; simpl.
  - now exists 0%nat.
  - destruct skip as [| k]; [| apply IH].
    destruct (Py.startswith sep (c :: text)); [| apply IH].
    simpl. destruct (IH (length sep - 1)%nat []) as [m Hm].
    exists (S m). lia.
Qed.

Lemma concat_filter_nonempty (l : list (list N)) :
  concat (filter (fun s => s <> []) l) = concat l.
Proof.
  induction l as [| x l IH]; [reflexivity |].
  rewrite filter_cons. destruct (decide (x <> [])) as [_ | Hx]; simpl.
  - now rewrite IH.
  - apply dec_stable in Hx as ->. now rewrite IH.
Qed.

Lemma split_pieces_concat (text separator : list N) :
  concat (Splitter._split_text_with_regex text separator) = text.
Proof.
  unfold Splitter._split_text_with_regex. rewrite concat_filter_nonempty.
  destruct separator as [| c sep].
  - induction text as [| x text IH]; [reflexivity | csimpl; now rewrite IH].
  - destruct (re_split_group_concat (c :: sep) (length text)
                ltac:(discriminate) text [] (Nat.le_refl _))
      as (first & rest & -> & Hcat).
    exact Hcat.
Qed.

Lemma split_pieces_nonempty (text separator : list N) :
  Forall (fun s => s <> []) (Splitter._split_text_with_regex text separator).
Proof.
  unfold Splitter._split_text_with_regex. apply Forall_forall.
  intros s Hs. now apply list_elem_of_filter in Hs as [Hs _].
Qed.

Lemma concat_nonempty_nil (l : list (list N)) :
  Forall (fun s => s <> []) l -> concat l = [] -> l = [].
Proof.
  destruct l as [| x l]; [reflexivity |].
  intros Hne Hcat. apply Forall_cons in Hne as [Hx _].
  simpl in Hcat. apply app_eq_nil in Hcat as [-> _]. contradiction.
Qed.

Section Fits.
Variable self : Splitter.t.

(** While everything still fits, [_merge_splits] only collects. *)
Lemma merge_loop_fits (splits docs current_doc : list (list N)) :
  Py.len (concat current_doc) + Py.len (concat splits)
    <= Splitter._chunk_size self ->
  Splitter.merge_loop self [] splits docs current_doc
    (Py.len (concat current_doc))
  = Splitter.append_doc docs
      (Splitter._join_docs (current_doc ++ splits) []).
Proof.
  revert current_doc.
  induction splits as [| d splits IH]; intros current_doc Hfit; simpl.
  - now rewrite app_nil_r.
  - change (Py.len (@nil N)) with 0. rewrite !sep_if_longer_zero.
    simpl in Hfit. rewrite len_app in Hfit.
    pose proof (len_nonneg (concat splits)).
    destruct (Z.ltb_spec (Splitter._chunk_size self)
                (Py.len (concat current_doc) + Py.len d + 0)); [lia |].
    rewrite sep_if_longer_zero.
    replace (Py.len (concat current_doc) + (Py.len d + 0))
      with (Py.len (concat (current_doc ++ [d])))
      by (rewrite concat_app, len_app; simpl; rewrite app_nil_r; lia).
    rewrite IH.
    + now rewrite <- app_assoc.
    + rewrite concat_app, len_app. simpl. rewrite app_nil_r. lia.
Qed.

Lemma split_loop_all_good (recurse : option (list N -> list (list N)))
    (splits final_chunks _good_splits : list (list N)) :
  Forall (fun s => Py.len s < Splitter._chunk_size self) splits ->
  Splitter.split_loop self recurse splits final_chunks _good_splits
  = match _good_splits ++ splits with
    | [] => final_chunks
    | _ :: _ =>
        final_chunks
          ++ Splitter._merge_splits self (_good_splits ++ splits) []
    end.
Proof.
  revert _good_splits.
  induction splits as [| s splits IH]; intros good Hall; simpl.
  - rewrite app_nil_r. reflexivity.
  - apply Forall_cons in Hall as [Hs Hall].
    destruct (Z.ltb_spec (Py.len s) (Splitter._chunk_size self)); [| lia].
    rewrite (IH _ Hall), <- app_assoc. reflexivity.
Qed.

(** A piece as long as the chunk size leaves no room for another. *)
Lemma oversized_piece_alone (pieces : list (list N)) (piece : list N) :
  Forall (fun s => s <> []) pieces ->
  Py.len (concat pieces) <= Splitter._chunk_size self ->
  piece ∈ pieces -> Splitter._chunk_size self <= Py.len piece ->
  pieces = [piece].
Proof.
  intros Hne Hfit Hin Hbig.
  apply list_elem_of_split in Hin as (l1 & l2 & ->).
  apply Forall_app in Hne as [Hne1 Hne2].
  apply Forall_cons in Hne2 as [_ Hne2].
  rewrite concat_app in Hfit. simpl in Hfit. rewrite !len_app in Hfit.
  pose proof (len_nonneg (concat l1)) as H1.
  pose proof (len_nonneg (concat l2)) as H2.
  assert (Hl1 : concat l1 = [])
    by (apply length_zero_iff_nil; unfold Py.len in *; lia).
  assert (Hl2 : concat l2 = [])
    by (apply length_zero_iff_nil; unfold Py.len in *; lia).
  now rewrite (concat_nonempty_nil l1 Hne1 Hl1),
    (concat_nonempty_nil l2 Hne2 Hl2).
Qed.

Variable text : list N.
Hypothesis text_nonempty : text <> [].
Hypothesis text_fits : Py.len text <= Splitter._chunk_size self.
Hypothesis text_stripped : Py.strip text = text.

Lemma join_docs_text (pieces : list (list N)) :
  concat pieces = text -> Splitter._join_docs pieces [] = Some text.
Proof.
  intros Hcat. unfold Splitter._join_docs.
  rewrite join_empty_separator, Hcat, text_stripped.
  now destruct text.
Qed.

Lemma split_with_fits (separator : list N)
    (recurse : option (list N -> list (list N))) :
  match recurse with
  | Some f => f text = [text]
  | None => True
  end ->
  Splitter.split_with self separator recurse text = [text].
Proof.
  intros Hrec. unfold Splitter.split_with.
  pose proof (split_pieces_concat text separator) as Hcat.
  pose proof (split_pieces_nonempty text separator) as Hne.
  set (pieces := Splitter._split_text_with_regex text separator) in *.
  destruct (decide (Forall (fun s => Py.len s < Splitter._chunk_size self)
                      pieces)) as [Hgood | Hbig].
  - rewrite (split_loop_all_good _ _ _ _ Hgood). simpl.
    destruct pieces as [| s pieces'] eqn:Hp;
      [simpl in Hcat; now subst text |].
    rewrite <- Hp in *. unfold Splitter._merge_splits.
    change 0 with (Py.len (concat (@nil (list N)))).
    rewrite merge_loop_fits
      by (simpl; rewrite len_nil, Hcat; lia).
    simpl. now rewrite (join_docs_text pieces Hcat).
  - apply not_Forall_Exists in Hbig; [| intros; apply _].
    apply Exists_exists in Hbig as (piece & Hin & Hpiece).
    simpl in Hpiece. apply Z.nlt_ge in Hpiece.
    assert (Hone : pieces = [piece]).
    { apply oversized_piece_alone; [assumption | | assumption | assumption].
      rewrite Hcat. exact text_fits. }
    rewrite Hone in Hcat |- *. simpl in Hcat. rewrite app_nil_r in Hcat.
    subst piece. simpl.
    destruct (Z.ltb_spec (Py.len text) (Splitter._chunk_size self));
      [lia |].
    destruct recurse as [f |]; [now rewrite Hrec | reflexivity].
Qed.

Lemma split_text_rec_fits (s : list N) (rest : list (list N)) :
  Splitter._split_text self s rest text = [text].
Proof.
  revert s. induction rest as [| s' rest' IH]; intros s.
  - destruct s; simpl; now apply split_with_fits.
  - simpl. destruct s as [| c s]; [now apply split_with_fits |].
    destruct (Py.contains (c :: s) text); [| apply IH].
    apply split_with_fits. apply IH.
Qed.

End Fits.

Lemma split_text_fits (self : Splitter.t) (text : list N) :
  Splitter._separators self <> [] ->
  text <> [] -> Py.len text <= Splitter._chunk_size self ->
  Py.strip text = text ->
  Splitter.split_text self text = [text].
Proof.
  intros Hseps Hne Hfit Hstrip. unfold Splitter.split_text.
  destruct (Splitter._separators self) as [| s rest]; [contradiction |].
  now apply split_text_rec_fits.
Qed.

Lemma demo_processor_init :
  DocumentProcessor.__init__ Demo.settings None None = Ok Demo.processor.
Proof. reflexivity. Qed.

(** C5 as stated fails: a document of two characters, a space and a
    letter, is within a chunk size of ten, and splitting returns it without
    the space. *)
Lemma resplitting_strips_whitespace :
  Forall (fun d => Py.len (page_content d)
                   <= DocumentProcessor.self_chunk_size Demo.processor)
    [mkDocument (Py.lit " a") ∅]
  /\ DocumentProcessor.split_documents Demo.processor
       [mkDocument (Py.lit " a") ∅]
     = [mkDocument (Py.lit "a") ∅]
  /\ DocumentProcessor.split_documents Demo.processor
       [mkDocument (Py.lit " a") ∅]
     <> [mkDocument (Py.lit " a") ∅].
Proof.
  split; [| split].
  - repeat constructor. vm_compute. discriminate.
  - reflexivity.
  - vm_compute. discriminate.
Qed.

(** C5, amended: documents whose text is not empty, is within the chunk
    size and has no whitespace at either end come back from
    [split_documents] unchanged. *)
Theorem resplitting_stripped_chunks_unchanged (settings : Config.Settings)
    (chunk_size chunk_overlap : option Z) (self : DocumentProcessor.t)
    (documents : list Document) :
  DocumentProcessor.__init__ settings chunk_size chunk_overlap = Ok self ->
  Forall (fun d => page_content d <> []
                   /\ Py.len (page_content d)
                      <= DocumentProcessor.self_chunk_size self
                   /\ Py.strip (page_content d) = page_content d) documents ->
  DocumentProcessor.split_documents self documents = documents.
Proof.
  intros Hinit Hdocs. apply init_valid in Hinit as (Hsplitter & _ & _).
  unfold DocumentProcessor.split_documents, Splitter.split_documents.
  rewrite Hsplitter.
  induction Hdocs as [| d documents (Hne & Hfit & Hstrip) _ IH];
    [reflexivity |].
  rewrite bind_cons, IH.
  rewrite (split_text_fits (Splitter.mk _ _ _) (page_content d));
    [now destruct d | discriminate | assumption | assumption | assumption].
Qed.

Lemma resplitting_stripped_chunks_unchanged_witness :
  DocumentProcessor.split_documents Demo.processor
    [mkDocument (Py.lit "aaaaaaaa") ∅; mkDocument (Py.lit "bb bb") ∅]
  = [mkDocument (Py.lit "aaaaaaaa") ∅; mkDocument (Py.lit "bb bb") ∅].
Proof.
  apply (resplitting_stripped_chunks_unchanged Demo.settings None None).
  - reflexivity.
  - repeat constructor; try discriminate; vm_compute; discriminate.
Defined.

(** ** Overlap between adjacent chunks *)

(** C4 as stated fails: with a chunk size of ten and an overlap of three,
    two words of eight letters become two chunks that share nothing,
    though each is longer than the overlap. *)
Lemma overlap_fails_between_words :
  page_content
    <$> DocumentProcessor.split_documents Demo.processor
          [mkDocument (Py.lit "aaaaaaaa bbbbbbbb") ∅]
  = [Py.lit "aaaaaaaa"; Py.lit "bbbbbbbb"]
  /\ ~ overlapping 3
        (page_content
           <$> DocumentProcessor.split_documents Demo.processor
                 [mkDocument (Py.lit "aaaaaaaa bbbbbbbb") ∅]).
Proof.
  split; [reflexivity |]. intros Hoverlap.
  specialize (Hoverlap 0%nat (Py.lit "aaaaaaaa") (Py.lit "bbbbbbbb")
                eq_refl eq_refl).
  vm_compute in Hoverlap.
  discriminate Hoverlap; repeat constructor.
Qed.

Lemma overlapping_zero (chunks : list (list N)) : overlapping 0 chunks.
Proof.
  intros i a b _ _ _ _. unfold tail_of.
  now rewrite Nat.sub_0_r, drop_all, take_0.
Qed.

(** Appending a chunk that starts with the end of the last one. *)
Lemma overlapping_snoc (n : nat) (docs : list (list N)) (chunk : list N) :
  overlapping n docs ->
  (forall prev, last docs = Some prev -> (n <= length prev)%nat ->
                (n <= length chunk)%nat -> tail_of n prev = take n chunk) ->
  overlapping n (docs ++ [chunk]).
Proof.
  intros Hdocs Hlast i a b Ha Hb Hla Hlb.
  destruct (decide (S i < length docs)%nat) as [Hin | Hout].
  - rewrite lookup_app_l in Ha by lia. rewrite lookup_app_l in Hb by lia.
    now apply (Hdocs i).
  - destruct (decide (S i = length docs)) as [Heq | Hne].
    + rewrite lookup_app_l in Ha by lia.
      rewrite lookup_app_r, <- Heq, Nat.sub_diag in Hb by lia.
      injection Hb as <-. apply Hlast; [| assumption | assumption].
      rewrite last_lookup, <- Heq. exact Ha.
    + apply lookup_lt_Some in Hb. rewrite length_app in Hb. simpl in Hb. lia.
Qed.

Lemma lstrip_head (c : N) (s : list N) :
  Py.isspace c = false -> Py.lstrip (c :: s) = c :: s.
Proof. intros Hc. simpl. now rewrite Hc. Qed.

(** Text without whitespace is its own [strip]. *)
Lemma strip_no_whitespace (s : list N) :
  Forall (fun c => Py.isspace c = false) s -> Py.strip s = s.
Proof.
  intros Hs.
  assert (Hl : forall t, Forall (fun c => Py.isspace c = false) t ->
                         Py.lstrip t = t).
  { intros [| c t] Ht; [reflexivity |].
    apply Forall_cons in Ht as [Hc _]. now apply lstrip_head. }
  unfold Py.strip, Py.rstrip.
  rewrite (Hl (reverse s)) by now apply Forall_reverse.
  rewrite reverse_involutive. now apply Hl.
Qed.

Lemma contains_chars (pat s : list N) (c : N) :
  Py.contains pat s = true -> c ∈ pat -> c ∈ s.
Proof.
  intros Hcontains Hc. induction s as [| a s IH]; simpl in Hcontains.
  - rewrite orb_false_r in Hcontains.
    apply startswith_prefix in Hcontains as [rest ->].
    apply elem_of_app. now left.
  - apply orb_true_iff in Hcontains as [Hstart | Htail].
    + apply startswith_prefix in Hstart as [rest ->].
      apply elem_of_app. now left.
    + apply elem_of_cons. right. now apply IH.
Qed.

(** A separator with a whitespace character does not occur in text
    without whitespace. *)
Lemma contains_whitespace (pat s : list N) (c : N) :
  c ∈ pat -> Py.isspace c = true ->
  Forall (fun c => Py.isspace c = false) s ->
  Py.contains pat s = false.
Proof.
  intros Hc Hspace Hs. destruct (Py.contains pat s) eqn:Hcontains;
    [| reflexivity].
  pose proof (contains_chars pat s c Hcontains Hc) as Hin.
  eapply Forall_forall in Hs; [| exact Hin]. congruence.
Qed.

Section HardCut.
Variable self : Splitter.t.
Hypothesis overlap_positive : 0 < Splitter._chunk_overlap self.
Hypothesis overlap_smaller :
  Splitter._chunk_overlap self < Splitter._chunk_size self.

Local Abbreviation chars text := ((fun c : N => [c]) <$> text).
Local Abbreviation no_whitespace :=
  (Forall (fun c : N => Py.isspace c = false)).
Local Abbreviation keep := (Z.to_nat (Splitter._chunk_overlap self)).

Lemma concat_chars (u : list N) : concat (chars u) = u.
Proof. induction u as [| x u IH]; [reflexivity | csimpl; now rewrite IH]. Qed.

(** On single characters the pop loop keeps the last [chunk_overlap]
    of them. *)
Lemma pop_loop_chars (u : list N) :
  Py.len u <= Splitter._chunk_size self ->
  Splitter.pop_loop self 0 1 (chars u) (Py.len u)
  = (chars (drop (length u - keep) u),
     Z.min (Py.len u) (Splitter._chunk_overlap self)).
Proof.
  induction u as [| x u IH]; intros Hfit.
  - simpl. rewrite len_nil. f_equal. lia.
  - assert (Hlen : Py.len (x :: u) = Py.len u + 1)
      by (unfold Py.len; simpl; lia).
    rewrite fmap_cons. cbn [Splitter.pop_loop].
    rewrite !sep_if_longer_zero.
    destruct (Z.ltb_spec (Splitter._chunk_overlap self) (Py.len (x :: u)))
      as [Hpop | Hstop]; simpl orb.
    + replace (Py.len (x :: u) - (Py.len [x] + 0)) with (Py.len u)
        by (unfold Py.len; simpl; lia).
      rewrite IH by lia.
      replace (length (x :: u) - keep)%nat with (S (length u - keep))
        by (unfold Py.len in *; simpl; lia).
      simpl. f_equal. lia.
    + destruct (Z.ltb_spec (Splitter._chunk_size self)
                  (Py.len (x :: u) + 1 + 0)); [lia |].
      simpl andb. cbv iota.
      replace (length (x :: u) - keep)%nat with 0%nat
        by (unfold Py.len in *; simpl in *; lia).
      rewrite drop_0. f_equal. lia.
Qed.

(** Merging single characters of text without whitespace: every chunk
    begins with the last [chunk_overlap] characters of the chunk
    before it. [u] is the text held in [current_doc]. *)
Lemma merge_chars_overlapping (rest u : list N) (docs : list (list N)) :
  no_whitespace rest -> no_whitespace u ->
  Py.len u <= Splitter._chunk_size self ->
  overlapping keep docs ->
  (forall prev, last docs = Some prev ->
                (keep <= length prev)%nat
                /\ exists r, u = tail_of keep prev ++ r) ->
  overlapping keep
    (Splitter.merge_loop self [] (chars rest) docs (chars u) (Py.len u)).
Proof.
  revert u docs.
  induction rest as [| c rest IH]; intros u docs Hrest Hu Hfit Hdocs Hprev.
  - simpl. unfold Splitter._join_docs.
    rewrite join_empty_separator, concat_chars, (strip_no_whitespace u Hu).
    destruct u as [| x u]; [exact Hdocs |]. simpl.
    apply overlapping_snoc; [assumption |].
    intros prev Hlast Hlp _.
    destruct (Hprev prev Hlast) as (_ & r & ->).
    rewrite take_app_length'; [reflexivity |].
    unfold tail_of. rewrite length_drop. lia.
  - apply Forall_cons in Hrest as [Hc Hrest].
    rewrite fmap_cons. cbn [Splitter.merge_loop].
    change (Py.len (@nil N)) with 0. change (Py.len [c]) with 1.
    rewrite sep_if_longer_zero.
    assert (Hnext : forall docs' u',
      no_whitespace u' -> Py.len u' + 1 <= Splitter._chunk_size self ->
      overlapping keep docs' ->
      (forall prev, last docs' = Some prev ->
                    (keep <= length prev)%nat
                    /\ exists r, u' = tail_of keep prev ++ r) ->
      overlapping keep
        (Splitter.merge_loop self [] (chars rest) docs' (chars u' ++ [[c]])
           (Py.len u'
            + (1 + Splitter.sep_if_longer 0 (chars u' ++ [[c]]) 1)))).
    { intros docs' u' Hu' Hroom Hdocs' Hprev'.
      rewrite sep_if_longer_zero.
      replace (Py.len u' + (1 + 0)) with (Py.len (u' ++ [c]))
        by (rewrite len_app; unfold Py.len; simpl; lia).
      replace (chars u' ++ [[c]]) with (chars (u' ++ [c]))
        by now rewrite fmap_app.
      apply IH; try assumption.
      - apply Forall_app. split; [assumption | now repeat constructor].
      - rewrite len_app. unfold Py.len in *. simpl. lia.
      - intros prev Hlast. destruct (Hprev' prev Hlast) as (Hlen & r & ->).
        split; [assumption |]. exists (r ++ [c]). now rewrite app_assoc. }
    destruct (Z.ltb_spec (Splitter._chunk_size self) (Py.len u + 1 + 0))
      as [Hfull | Hroom]; [| apply Hnext; try assumption; lia].
    assert (Hsize : Py.len u = Splitter._chunk_size self) by lia.
    destruct (chars u) as [| d0 ds] eqn:Hchars.
    { destruct u; [rewrite len_nil in Hsize; lia | discriminate]. }
    cbv iota beta. rewrite <- Hchars, (pop_loop_chars u Hfit).
    cbv iota beta.
    replace (Z.min (Py.len u) (Splitter._chunk_overlap self))
      with (Py.len (drop (length u - keep) u))
      by (unfold Py.len in *; rewrite length_drop; lia).
    unfold Splitter._join_docs at 1.
    rewrite join_empty_separator, concat_chars, (strip_no_whitespace u Hu).
    assert (Hu_nonempty : u <> []) by (intros ->; discriminate).
    destruct u as [| x u]; [contradiction |].
    cbn [Splitter.append_doc].
    apply Hnext.
    + apply Forall_drop. exact Hu.
    + unfold Py.len in *. rewrite length_drop. lia.
    + apply overlapping_snoc; [assumption |].
      intros prev Hlast Hlp _.
      destruct (Hprev prev Hlast) as (_ & r & Hr). rewrite Hr.
      rewrite take_app_length'; [reflexivity |].
      unfold tail_of. rewrite length_drop. lia.
    + intros prev Hlast. rewrite last_snoc in Hlast. injection Hlast as <-.
      split; [unfold Py.len in *; lia |].
      exists []. now rewrite app_nil_r.
Qed.

End HardCut.

Lemma split_into_characters (text : list N) :
  Splitter._split_text_with_regex text [] = (fun c : N => [c]) <$> text.
Proof.
  unfold Splitter._split_text_with_regex.
  induction text as [| c text IH]; [reflexivity |].
  rewrite fmap_cons, filter_cons_True by discriminate. now rewrite IH.
Qed.

(** Text without whitespace contains none of the four separators before
    the empty one, so the processor's splitter cuts it by characters. *)
Lemma split_text_no_whitespace (size overlap : Z) (text : list N) :
  Forall (fun c => Py.isspace c = false) text ->
  Splitter.split_text
    (Splitter.mk size overlap DocumentProcessor.separators) text
  = Splitter.split_with
      (Splitter.mk size overlap DocumentProcessor.separators) [] None text.
Proof.
  intros Htext. unfold Splitter.split_text. simpl.
  rewrite (contains_whitespace [10; 10]%N text 10%N), 
    (contains_whitespace [10]%N text 10%N),
    (contains_whitespace [46; 32]%N text 32%N),
    (contains_whitespace [32]%N text 32%N);
    try assumption; try reflexivity;
    repeat first [apply list_elem_of_here | apply list_elem_of_further].
Qed.

Lemma split_documents_singleton (sp : Splitter.t) (doc : Document) :
  page_content <$> Splitter.split_documents sp [doc]
  = Splitter.split_text sp (page_content doc).
Proof.
  unfold Splitter.split_documents. csimpl. rewrite app_nil_r.
  induction (Splitter.split_text sp (page_content doc)) as [| chunk l IH];
    [reflexivity | csimpl; now rewrite IH].
Qed.

Lemma overlapping_nil (n : nat) : overlapping n [].
Proof. intros i a b Ha. inversion Ha. Qed.

(** C4, amended: for text without whitespace, which the splitter cuts by
    character count alone, and an overlap smaller than the chunk size,
    every chunk ends with the [chunk_overlap] characters the next chunk
    starts with. *)
Theorem hard_cut_chunks_overlap (settings : Config.Settings)
    (chunk_size chunk_overlap : option Z) (self : DocumentProcessor.t)
    (doc : Document) :
  DocumentProcessor.__init__ settings chunk_size chunk_overlap = Ok self ->
  DocumentProcessor.self_chunk_overlap self
    < DocumentProcessor.self_chunk_size self ->
  Forall (fun c => Py.isspace c = false) (page_content doc) ->
  overlapping (Z.to_nat (DocumentProcessor.self_chunk_overlap self))
    (page_content <$> DocumentProcessor.split_documents self [doc]).
Proof.
  intros Hinit Hsmaller Htext.
  apply init_valid in Hinit as (Hsplitter & Hsize & Hoverlap & _).
  unfold DocumentProcessor.split_documents.
  rewrite split_documents_singleton, Hsplitter.
  destruct (decide (DocumentProcessor.self_chunk_overlap self = 0)) as [-> | Hpos];
    [apply overlapping_zero |].
  rewrite (split_text_no_whitespace _ _ _ Htext).
  unfold Splitter.split_with.
  rewrite split_into_characters, split_loop_all_good.
  - simpl app. destruct (page_content doc) as [| c text] eqn:Hcontent;
      [apply overlapping_nil |].
    rewrite <- Hcontent in *. simpl app.
    destruct (_ <$> page_content doc) eqn:Hchars;
      [apply overlapping_nil | rewrite <- Hchars].
    unfold Splitter._merge_splits.
    apply (merge_chars_overlapping
             (Splitter.mk (DocumentProcessor.self_chunk_size self)
                (DocumentProcessor.self_chunk_overlap self)
                DocumentProcessor.separators)
             ltac:(simpl; lia) ltac:(simpl; lia) (page_content doc) [] []);
      [assumption | constructor | simpl; rewrite len_nil; lia
      | apply overlapping_nil | intros prev [=]].
  - apply Forall_fmap, Forall_forall. intros c _. simpl.
    change (Py.len [c]) with 1. lia.
Qed.

Lemma hard_cut_chunks_overlap_witness :
  page_content
    <$> DocumentProcessor.split_documents Demo.processor
          [mkDocument (Py.lit "abcdefghijklmnopqrstuvwxyz") ∅]
  = [Py.lit "abcdefghij"; Py.lit "hijklmnopq"; Py.lit "opqrstuvwx";
     Py.lit "vwxyz"]
  /\ overlapping 3
       (page_content
          <$> DocumentProcessor.split_documents Demo.processor
                [mkDocument (Py.lit "abcdefghijklmnopqrstuvwxyz") ∅]).
Proof.
  split; [reflexivity |].
  apply (hard_cut_chunks_overlap Demo.settings None None Demo.processor).
  - reflexivity.
  - reflexivity.
  - repeat constructor.
Defined.


(** * Further properties *)

(** ** The constructor *)

(** A size that was not supplied is taken from the settings. *)
Lemma or_int_none (d : Z) : Py.or_int None d = d.
Proof. reflexivity. Qed.

(** The constructor returns a processor exactly when the sizes it
    settles on, after defaulting, are a positive chunk size and an overlap
    between zero and that size; the processor then holds those two sizes
    and a splitter built from them. Otherwise it raises a [ValueError]. *)
Theorem init_succeeds_iff_sizes_valid (settings : Config.Settings)
    (chunk_size chunk_overlap : option Z) :
  let size := Py.or_int chunk_size (Config.chunk_size settings) in
  let overlap := Py.or_int chunk_overlap (Config.chunk_overlap settings) in
  (0 < size /\ 0 <= overlap <= size ->
   DocumentProcessor.__init__ settings chunk_size chunk_overlap
   = Ok (DocumentProcessor.mk size overlap
           (Splitter.mk size overlap DocumentProcessor.separators)))
  /\ (~ (0 < size /\ 0 <= overlap <= size) ->
      exists msg,
        DocumentProcessor.__init__ settings chunk_size chunk_overlap
        = Raise (Raised (ValueError msg))).
Proof.
  intros size overlap.
  unfold DocumentProcessor.__init__,
    DocumentProcessor._initialize_text_splitter, Splitter.init.
  fold size overlap.
  destruct (Z.leb_spec size 0); [| destruct (Z.ltb_spec overlap 0);
    [| destruct (Z.ltb_spec size overlap)]].
  - split; [lia | intros _; eauto].
  - split; [lia | intros _; eauto].
  - split; [lia | intros _; eauto].
  - split; [reflexivity | intros Hbad; lia].
Qed.

Lemma init_succeeds_iff_sizes_valid_witness :
  DocumentProcessor.__init__ Demo.defaults (Some 500) None
  = Ok (DocumentProcessor.mk 500 200
          (Splitter.mk 500 200 DocumentProcessor.separators))
  /\ exists msg,
       DocumentProcessor.__init__ Demo.defaults (Some 100) None
       = Raise (Raised (ValueError msg)).
Proof.
  split.
  - apply (proj1 (init_succeeds_iff_sizes_valid Demo.defaults (Some 500) None)).
    simpl. lia.
  - apply (proj2 (init_succeeds_iff_sizes_valid Demo.defaults (Some 100) None)).
    simpl. lia.
Defined.

Lemma init_stores_nonzero_witness :
  500 <> 0 /\ 50 <> 0
  /\ DocumentProcessor.self_chunk_size
       (DocumentProcessor.mk 500 50
          (Splitter.mk 500 50 DocumentProcessor.separators)) = 500
  /\ DocumentProcessor.self_chunk_overlap
       (DocumentProcessor.mk 500 50
          (Splitter.mk 500 50 DocumentProcessor.separators)) = 50.
Proof.
  split; [discriminate |]. split; [discriminate |].
  apply (init_stores_nonzero Demo.defaults 500 50);
    [discriminate | discriminate | reflexivity].
Defined.

(** ** Names without a usable suffix *)

Lemma suffix_without_dot (path : list N) :
  Path.dot ∉ Path.name path -> Path.suffix path = [].
Proof.
  intros Hdot. unfold Path.suffix. now rewrite (rfind_absent _ _ Hdot).
Qed.

Lemma suffix_leading_dot (path b : list N) :
  Path.name path = Path.dot :: b -> Path.dot ∉ b -> Path.suffix path = [].
Proof.
  intros Hname Hdot. unfold Path.suffix. rewrite Hname.
  pose proof (rfind_last Path.dot [] b Hdot) as Hfind.
  change ([] ++ Path.dot :: b) with (Path.dot :: b) in Hfind.
  now rewrite Hfind.
Qed.

Lemma suffix_trailing_dot (path a : list N) :
  Path.name path = a ++ [Path.dot] -> Path.suffix path = [].
Proof.
  intros Hname. unfold Path.suffix. rewrite Hname.
  rewrite (rfind_last Path.dot a []) by apply not_elem_of_nil.
  rewrite length_app. simpl.
  destruct (Nat.ltb_spec (length a) (length a + 1 - 1)); [lia |].
  now rewrite andb_false_r.
Qed.

Lemma empty_extension_unsupported :
  Py.lower [] ∉ DocumentProcessor.SUPPORTED_EXTENSIONS.
Proof. apply (bool_decide_unpack _). vm_compute. exact I. Qed.

(** A file whose name has no dot ([README]), only a leading dot ([.pdf],
    [.csv]) or a trailing dot ([report.]) has no suffix, and is rejected
    by [load_file], [process_file] and the upload entry point alike, the
    latter without touching the world or the stream. *)
Theorem names_without_suffix_rejected `{Loaders} (self : DocumentProcessor.t)
    (files : gmap (list N) (list N)) (w : World) (file : BinaryIO)
    (path : list N) :
  Path.dot ∉ Path.name path
  \/ (exists b, Path.name path = Path.dot :: b /\ Path.dot ∉ b)
  \/ (exists a, Path.name path = a ++ [Path.dot]) ->
  DocumentProcessor.load_file files path = Raise (UnsupportedExtension [])
  /\ DocumentProcessor.process_file self files path
     = Raise (UnsupportedExtension [])
  /\ DocumentProcessor.load_from_uploaded_file w file path
     = (w, file, Raise (UnsupportedExtension [])).
Proof.
  intros Hname.
  assert (Hsuffix : Path.suffix path = []).
  { destruct Hname as [Hdot | [(b & Hb & Hdot) | (a & Ha)]].
    - now apply suffix_without_dot.
    - now apply (suffix_leading_dot path b).
    - now apply (suffix_trailing_dot path a). }
  assert (Hload : DocumentProcessor.load_file files path
                  = Raise (UnsupportedExtension [])).
  { unfold DocumentProcessor.load_file. rewrite Hsuffix.
    destruct (decide _) as [_ | Hin]; [reflexivity |].
    now destruct (Hin empty_extension_unsupported). }
  split; [exact Hload |]. split.
  - unfold DocumentProcessor.process_file. now rewrite Hload.
  - unfold DocumentProcessor.load_from_uploaded_file. rewrite Hsuffix.
    destruct (decide _) as [_ | Hin]; [reflexivity |].
    now destruct (Hin empty_extension_unsupported).
Qed.

Lemma names_without_suffix_rejected_witness :
  Path.name (Py.lit "/uploads/.pdf") = Path.dot :: Py.lit "pdf"
  /\ @DocumentProcessor.load_file Demo.loaders ∅ (Py.lit "/uploads/.pdf")
     = Raise (UnsupportedExtension []).
Proof.
  split; [reflexivity |].
  apply (@names_without_suffix_rejected Demo.loaders Demo.processor ∅
           Demo.world Demo.closed_upload (Py.lit "/uploads/.pdf")).
  right. left. exists (Py.lit "pdf"). split; [reflexivity |].
  not_in_literal.
Defined.

(** ** The temporary file of an upload *)

Section UploadEffects.
Context `{Loaders}.


End UploadEffects.

(** What an upload leaves behind does not depend on the loader: the
    file system, the name generator and the stream after
    [load_from_uploaded_file] and after [process_upload] are the same
    for any two sets of loaders, one of which may return documents where
    the other raises. And whenever a call returns documents, the file
    system is the one before the call: the temporary file is gone. *)
Theorem upload_cleanup_independent_of_loader (loaders other : Loaders)
    (self : DocumentProcessor.t) (w : World) (file : BinaryIO)
    (filename : list N) :
  (@DocumentProcessor.load_from_uploaded_file loaders w file filename).1
    = (@DocumentProcessor.load_from_uploaded_file other w file filename).1
  /\ (@DocumentProcessor.process_upload loaders self w file filename).1
     = (@DocumentProcessor.process_upload other self w file filename).1
  /\ (forall documents,
        (@DocumentProcessor.load_from_uploaded_file loaders w file filename).2
          = Ok documents ->
        fs (@DocumentProcessor.load_from_uploaded_file loaders w file filename).1.1
          = fs w)
  /\ (forall chunks,
        (@DocumentProcessor.process_upload loaders self w file filename).2
          = Ok chunks ->
        fs (@DocumentProcessor.process_upload loaders self w file filename).1.1
          = fs w).
Proof.
  assert (Hsame :
    (@DocumentProcessor.load_from_uploaded_file loaders w file filename).1
    = (@DocumentProcessor.load_from_uploaded_file other w file filename).1).
  { unfold DocumentProcessor.load_from_uploaded_file.
    destruct (decide _); [reflexivity |].
    destruct (tempfile.NamedTemporaryFile w _) as [w1 [tmp_path | e]];
      [| reflexivity].
    destruct (read file) as [file1 [data | e]]; reflexivity. }
  assert (Hclean : forall documents,
    (@DocumentProcessor.load_from_uploaded_file loaders w file filename).2
      = Ok documents ->
    fs (@DocumentProcessor.load_from_uploaded_file loaders w file filename).1.1
      = fs w).
  { intros documents Hok.
    apply (@temp_file_removed_after_load loaders).
    - unfold DocumentProcessor.load_from_uploaded_file in Hok.
      destruct (decide (Py.lower (Path.suffix filename)
                          ∉ DocumentProcessor.SUPPORTED_EXTENSIONS))
        as [_ | Hin]; [discriminate |].
      now apply dec_stable.
    - unfold DocumentProcessor.load_from_uploaded_file, read in Hok.
      destruct (decide _); [discriminate |].
      destruct (tempfile.NamedTemporaryFile w _) as [w1 [tmp_path | e]];
        [| discriminate].
      destruct (closed file); [discriminate | reflexivity]. }
  split; [exact Hsame |]. split; [| split; [exact Hclean |]].
  - unfold DocumentProcessor.process_upload.
    destruct (@DocumentProcessor.load_from_uploaded_file loaders w file filename)
      as [[w1 file1] r1].
    destruct (@DocumentProcessor.load_from_uploaded_file other w file filename)
      as [[w2 file2] r2].
    simpl in Hsame. injection Hsame as <- <-.
    now destruct r1, r2.
  - intros chunks Hok. unfold DocumentProcessor.process_upload in *.
    destruct (@DocumentProcessor.load_from_uploaded_file loaders w file filename)
      as [[w1 file1] [documents | e]]; [| discriminate].
    exact (Hclean documents eq_refl).
Qed.


Lemma upload_cleanup_independent_of_loader_witness :
  (@DocumentProcessor.process_upload Demo.loaders Demo.processor Demo.world
     (Demo.upload "aaaaaaaa bbbbbbbb") (Py.lit "notes.txt")).2
  = Ok [mkDocument (Py.lit "aaaaaaaa")
          {[ Py.lit "source" := VStr (Py.lit "notes.txt") ]};
        mkDocument (Py.lit "bbbbbbbb")
          {[ Py.lit "source" := VStr (Py.lit "notes.txt") ]}]
  /\ fs (@DocumentProcessor.process_upload Demo.loaders Demo.processor
           Demo.world (Demo.upload "aaaaaaaa bbbbbbbb")
           (Py.lit "notes.txt")).1.1
     = fs Demo.world.
Proof.
  split; [reflexivity |].
  exact (proj2 (proj2 (proj2
           (@upload_cleanup_independent_of_loader Demo.loaders Demo.loaders
              Demo.processor Demo.world (Demo.upload "aaaaaaaa bbbbbbbb")
              (Py.lit "notes.txt")))) _ eq_refl).
Defined.


(** ** The upload route *)

Section UploadRoute.
Context `{Loaders} `{VectorStore}.

Lemma init_raises_value_error (settings : Config.Settings)
    (chunk_size chunk_overlap : option Z) (e : exn) :
  DocumentProcessor.__init__ settings chunk_size chunk_overlap = Raise e ->
  Routes.status_of e = 400.
Proof.
  unfold DocumentProcessor.__init__,
    DocumentProcessor._initialize_text_splitter, Splitter.init.
  repeat match goal with
         | |- context [if ?b then _ else _] => destruct b
         end; intros [= <-]; reflexivity.
Qed.

(** An upload without a filename, with an empty one, or with a filename
    whose extension is not supported is answered with status 400; the
    vector store is handed nothing, and the file system, the name
    generator and the stream are untouched. *)
Theorem upload_document_rejects_with_400 (settings : Config.Settings)
    (w : World) (upload : Routes.UploadFile) :
  Routes.filename upload = None
  \/ Routes.filename upload = Some []
  \/ (exists name, Routes.filename upload = Some name
        /\ Py.lower (Path.suffix name)
             ∉ DocumentProcessor.SUPPORTED_EXTENSIONS) ->
  Routes.upload_document settings w upload
  = (w, Routes.file upload, [], Routes.HTTPException 400).
Proof.
  intros Hbad. unfold Routes.upload_document.
  destruct Hbad as [-> | [-> | (name & -> & Hext)]]; [reflexivity.. |].
  destruct name as [| c name]; [reflexivity |].
  destruct (DocumentProcessor.__init__ settings None None) as [processor | e]
    eqn:Hinit.
  - unfold DocumentProcessor.load_from_uploaded_file.
    destruct (decide _) as [_ | Hin]; [reflexivity | contradiction].
  - now rewrite (init_raises_value_error _ _ _ _ Hinit).
Qed.

(** When the route answers with a response, loading succeeded and the
    store was handed exactly one batch, the loaded documents, each
    stamped with the upload's filename; [chunks_created] counts that
    batch, [document_ids] are the identifiers the store returned for it,
    and the response names the uploaded file. *)
Theorem upload_document_response (settings : Config.Settings) (w w' : World)
    (name : list N) (file file' : BinaryIO)
    (batches : list (list Document))
    (response : Routes.DocumentUploadResponse) :
  Routes.upload_document settings w (Routes.mkUploadFile (Some name) file)
    = (w', file', batches, Routes.Returned response) ->
  exists documents,
    DocumentProcessor.load_from_uploaded_file w file name
      = (w', file', Ok documents)
    /\ batches = [documents]
    /\ Forall (fun d => metadata d !! Py.lit "source" = Some (VStr name))
         documents
    /\ Routes.chunks_created response = Py.len documents
    /\ add_documents documents = inr (Routes.document_ids response)
    /\ Routes.response_filename response = name.
Proof.
  unfold Routes.upload_document. simpl.
  destruct name as [| c name]; [discriminate |].
  destruct (DocumentProcessor.__init__ settings None None); [| discriminate].
  pose proof (load_from_uploaded_file_stamped w file (c :: name))
    as [raw Hraw].
  destruct (DocumentProcessor.load_from_uploaded_file w file (c :: name))
    as [[w1 file1] [documents | e]]; [| discriminate].
  destruct connect; [discriminate |].
  destruct (add_documents documents) as [e | ids] eqn:Hadd; [discriminate |].
  intros [= <- <- <- <-]. exists documents.
  repeat split; try reflexivity; try assumption.
  simpl in Hraw. rewrite Hraw.
  apply Forall_fmap, Forall_forall. intros d _. simpl.
  apply lookup_insert_eq.
Qed.

End UploadRoute.

Lemma upload_document_rejects_with_400_witness :
  @Routes.upload_document Demo.loaders Demo.store Demo.settings Demo.world
    (Routes.mkUploadFile (Some (Py.lit "slides.pptx")) (Demo.upload "x"))
  = (Demo.world, Demo.upload "x", [], Routes.HTTPException 400).
Proof.
  apply (@upload_document_rejects_with_400 Demo.loaders Demo.store).
  right. right. exists (Py.lit "slides.pptx"). split; [reflexivity |].
  apply (bool_decide_unpack _). vm_compute. exact I.
Defined.

Lemma upload_document_response_witness :
  exists documents,
    (@DocumentProcessor.load_from_uploaded_file Demo.loaders Demo.world
       (Demo.upload "aaaaaaaa bbbbbbbb") (Py.lit "notes.txt")).2
    = Ok documents
    /\ Py.len documents = 1.
Proof.
  destruct (@upload_document_response Demo.loaders Demo.store Demo.settings
              Demo.world _ (Py.lit "notes.txt")
              (Demo.upload "aaaaaaaa bbbbbbbb") _ _ _ eq_refl)
    as (documents & Hload & _ & _ & Hcount & _).
  exists documents. rewrite Hload. split; [reflexivity |].
  now rewrite <- Hcount.
Defined.

Lemma upload_document_hands_loaded_witness :
  (@DocumentProcessor.load_from_uploaded_file Demo.loaders Demo.world
     (Demo.upload "aaaaaaaa bbbbbbbb") (Py.lit "notes.txt")).2
  = Ok [mkDocument (Py.lit "aaaaaaaa bbbbbbbb")
          {[ Py.lit "source" := VStr (Py.lit "notes.txt") ]}].
Proof.
  apply (@upload_document_hands_loaded Demo.loaders Demo.store Demo.settings).
  apply list_elem_of_singleton. reflexivity.
Defined.

(** ** More on the embedding-model cache *)

Section CacheEdges.
Variable rejects : list N -> list N -> option lib_exn.

(** A failed construction is not cached: while the constructor rejects
    the configuration, every call raises its error again, no provider is
    constructed and the cache stays empty. *)
Theorem failed_construction_not_cached (settings : Config.Settings)
    (e : lib_exn) (n : nat) :
  rejects (Config.embedding_model settings) (Config.openai_api_key settings)
    = Some e ->
  Embeddings.calls rejects settings n Embeddings.fresh
  = (Embeddings.fresh, replicate n (Raise (Raised e))).
Proof.
  intros Hrej. induction n as [| n IH]; [reflexivity |].
  simpl. unfold Embeddings.get_embedding_model, Embeddings.construct. simpl.
  rewrite Hrej, IH. reflexivity.
Qed.

(** The cache is keyed by nothing: once a provider has been built from
    one configuration, a call made under any other configuration, even
    one the constructor would reject, returns that same provider, which
    still carries the model and key it was built with. *)
Theorem cached_provider_ignores_new_settings
    (first later : Config.Settings) (st : Embeddings.Process) (h : nat) :
  Embeddings.get_embedding_model rejects first Embeddings.fresh = (st, Ok h) ->
  Embeddings.get_embedding_model rejects later st = (st, Ok h)
  /\ Embeddings.heap st !! h
     = Some (Embeddings.mkOpenAIEmbeddings (Config.embedding_model first)
               (Config.openai_api_key first))
  /\ length (Embeddings.heap st) = 1%nat.
Proof.
  unfold Embeddings.get_embedding_model at 1. unfold Embeddings.construct.
  simpl. destruct (rejects _ _); [discriminate |].
  intros [= <- <-]. repeat split.
Qed.

End CacheEdges.

Lemma failed_construction_not_cached_witness :
  Embeddings.calls (fun _ key => match key with
                                 | [] => Some (ValueError "missing api key")
                                 | _ :: _ => None
                                 end)
    (Config.mkSettings 1000 200 (Py.lit "text-embedding-3-small") []) 2
    Embeddings.fresh
  = (Embeddings.fresh,
     [Raise (Raised (ValueError "missing api key"));
      Raise (Raised (ValueError "missing api key"))]).
Proof.
  apply (failed_construction_not_cached _
           (Config.mkSettings 1000 200 (Py.lit "text-embedding-3-small") [])
           (ValueError "missing api key") 2).
  reflexivity.
Defined.

Lemma cached_provider_ignores_new_settings_witness :
  Embeddings.get_embedding_model Demo.never_rejects
    (Config.mkSettings 1000 200 (Py.lit "text-embedding-3-large")
       (Py.lit "sk-other"))
    (Embeddings.mkProcess
       [Embeddings.mkOpenAIEmbeddings (Py.lit "text-embedding-3-small")
          (Py.lit "sk-test")] (Some 0%nat))
  = (Embeddings.mkProcess
       [Embeddings.mkOpenAIEmbeddings (Py.lit "text-embedding-3-small")
          (Py.lit "sk-test")] (Some 0%nat), Ok 0%nat).
Proof.
  apply (cached_provider_ignores_new_settings Demo.never_rejects
           Demo.settings
           (Config.mkSettings 1000 200 (Py.lit "text-embedding-3-large")
              (Py.lit "sk-other"))).
  reflexivity.
Defined.

(** ** What the splitter returns, for every configuration *)

Section EveryChunk.
Variable self : Splitter.t.

Local Abbreviation nonempty := (fun s : list N => s <> []).

Lemma join_docs_nonempty (current_doc : list (list N)) (separator text : list N) :
  Splitter._join_docs current_doc separator = Some text -> text <> [].
Proof.
  unfold Splitter._join_docs.
  destruct (Py.strip _); [discriminate | now intros [= <-]].
Qed.

Lemma append_doc_nonempty (docs current_doc : list (list N))
    (separator : list N) :
  Forall nonempty docs ->
  Forall nonempty
    (Splitter.append_doc docs (Splitter._join_docs current_doc separator)).
Proof.
  intros Hdocs. unfold Splitter.append_doc.
  destruct (Splitter._join_docs current_doc separator) as [text |] eqn:Hj;
    [| assumption].
  apply Forall_app. split; [assumption |].
  constructor; [now apply join_docs_nonempty in Hj | constructor].
Qed.

Lemma merge_loop_nonempty (separator : list N)
    (splits docs current_doc : list (list N)) (total : Z) :
  Forall nonempty docs ->
  Forall nonempty
    (Splitter.merge_loop self separator splits docs current_doc total).
Proof.
  revert docs current_doc total.
  induction splits as [| d splits IH]; intros docs current_doc total Hdocs;
    simpl.
  - now apply append_doc_nonempty.
  - destruct (_ <? _); [| now apply IH].
    destruct current_doc as [| d0 rest]; [now apply IH |].
    destruct (Splitter.pop_loop _ _ _ _ _) as [cur' total'].
    apply IH. now apply append_doc_nonempty.
Qed.

Lemma split_loop_nonempty (recurse : option (list N -> list (list N)))
    (splits final_chunks _good_splits : list (list N)) :
  Forall nonempty splits ->
  (forall f, recurse = Some f -> forall s, Forall nonempty (f s)) ->
  Forall nonempty final_chunks ->
  Forall nonempty
    (Splitter.split_loop self recurse splits final_chunks _good_splits).
Proof.
  intros Hsplits Hrec. revert final_chunks _good_splits.
  induction Hsplits as [| s splits Hs _ IH]; intros final good Hfinal; simpl.
  - destruct good; [assumption |].
    apply Forall_app. split; [assumption |].
    apply merge_loop_nonempty. constructor.
  - destruct (_ <? _); [now apply IH |]. apply IH.
    assert (Hflushed : Forall nonempty
      match good with
      | [] => final
      | _ :: _ => final ++ Splitter._merge_splits self good []
      end).
    { destruct good; [assumption |].
      apply Forall_app. split; [assumption |].
      apply merge_loop_nonempty. constructor. }
    destruct recurse as [f |]; apply Forall_app; (split; [assumption |]).
    + now apply (Hrec f).
    + now repeat constructor.
Qed.

Lemma split_text_rec_nonempty (s : list N) (rest : list (list N))
    (text : list N) :
  Forall nonempty (Splitter._split_text self s rest text).
Proof.
  revert s text. induction rest as [| s' rest' IH]; intros s text.
  - destruct s; simpl; unfold Splitter.split_with;
      (apply split_loop_nonempty;
       [apply split_pieces_nonempty | discriminate | constructor]).
  - simpl. destruct s as [| c s].
    + unfold Splitter.split_with.
      apply split_loop_nonempty;
        [apply split_pieces_nonempty | discriminate | constructor].
    + destruct (Py.contains (c :: s) text); [| apply IH].
      unfold Splitter.split_with.
      apply split_loop_nonempty;
        [apply split_pieces_nonempty | | constructor].
      intros f [= <-] piece. apply IH.
Qed.

End EveryChunk.

(** No chunk is empty: whatever the sizes and the separators of the
    processor, [split_documents] returns no document with an empty
    text. *)
Theorem split_documents_no_empty_chunk (self : DocumentProcessor.t)
    (documents : list Document) :
  Forall (fun d => page_content d <> [])
    (DocumentProcessor.split_documents self documents).
Proof.
  apply Forall_forall. intros d Hd.
  apply split_documents_content in Hd as (d0 & _ & Hd).
  unfold Splitter.split_text in Hd.
  destruct (Splitter._separators _) as [| s rest]; [inversion Hd |].
  pose proof (split_text_rec_nonempty (DocumentProcessor.text_splitter self)
                s rest (page_content d0)) as Hall.
  eapply Forall_forall in Hall; [exact Hall | exact Hd].
Qed.

(** *** Chunks are pieces of the text *)

Lemma substring_refl (s : list N) : substring s s.
Proof. exists [], []. now rewrite app_nil_r. Qed.

Lemma substring_trans (a b c : list N) :
  substring a b -> substring b c -> substring a c.
Proof.
  intros (x & y & ->) (x' & y' & ->).
  exists (x' ++ x), (y ++ y'). now rewrite <- !app_assoc.
Qed.

Lemma substring_app_l (a b : list N) : substring a (a ++ b).
Proof. now exists [], b. Qed.

Lemma substring_app_r (a b : list N) : substring b (a ++ b).
Proof. exists a, []. now rewrite app_nil_r. Qed.

Lemma lstrip_suffix (s : list N) : exists a, s = a ++ Py.lstrip s.
Proof.
  induction s as [| c s [a IH]]; [now exists [] |]. simpl.
  destruct (Py.isspace c); [| now exists []].
  exists (c :: a). simpl. now rewrite <- IH.
Qed.

Lemma strip_substring (s : list N) : substring (Py.strip s) s.
Proof.
  unfold Py.strip, Py.rstrip.
  destruct (lstrip_suffix (reverse s)) as [b Hb].
  destruct (lstrip_suffix (reverse (Py.lstrip (reverse s)))) as [a Ha].
  exists a, (reverse b). rewrite app_assoc, <- Ha.
  rewrite <- reverse_app, <- Hb. now rewrite reverse_involutive.
Qed.

Section Substrings.
Variable self : Splitter.t.
Variable text : list N.

Local Abbreviation inside := (fun s : list N => substring s text).

Lemma join_docs_substring (current_doc : list (list N)) (chunk : list N) :
  Splitter._join_docs current_doc [] = Some chunk ->
  substring chunk (concat current_doc).
Proof.
  unfold Splitter._join_docs. rewrite join_empty_separator.
  pose proof (strip_substring (concat current_doc)) as Hs.
  destruct (Py.strip _); [discriminate | now intros [= <-]].
Qed.

Lemma append_doc_inside (docs current_doc : list (list N)) :
  Forall inside docs -> inside (concat current_doc) ->
  Forall inside
    (Splitter.append_doc docs (Splitter._join_docs current_doc [])).
Proof.
  intros Hdocs Hcur. unfold Splitter.append_doc.
  destruct (Splitter._join_docs current_doc []) as [chunk |] eqn:Hj;
    [| assumption].
  apply Forall_app. split; [assumption |]. constructor; [| constructor].
  apply join_docs_substring in Hj. now apply (substring_trans _ _ _ Hj).
Qed.

(** The pop loop removes pieces from the front only. *)
Lemma pop_loop_keeps_suffix (separator_len _len : Z)
    (current_doc : list (list N)) (total : Z) :
  exists popped,
    current_doc
    = popped
        ++ (Splitter.pop_loop self separator_len _len current_doc total).1.
Proof.
  revert total. induction current_doc as [| d0 rest IH]; intros total; simpl.
  - now exists [].
  - destruct (_ || _); [| now exists []].
    destruct (IH (total - (Py.len d0
                           + Splitter.sep_if_longer separator_len (d0 :: rest) 1)))
      as [popped Hp].
    exists (d0 :: popped). simpl. now rewrite <- Hp.
Qed.

Lemma merge_loop_inside (splits docs current_doc : list (list N))
    (total : Z) :
  inside (concat current_doc ++ concat splits) ->
  Forall inside docs ->
  Forall inside (Splitter.merge_loop self [] splits docs current_doc total).
Proof.
  revert docs current_doc total.
  induction splits as [| d splits IH]; intros docs current_doc total Hrun Hdocs;
    simpl.
  - apply append_doc_inside; [assumption |].
    simpl in Hrun. now rewrite app_nil_r in Hrun.
  - simpl in Hrun.
    assert (Hcur : inside (concat current_doc))
      by (eapply substring_trans; [apply substring_app_l | exact Hrun]).
    assert (Hnext : forall docs' cur' total' popped,
      current_doc = popped ++ cur' -> Forall inside docs' ->
      Forall inside
        (Splitter.merge_loop self [] splits docs' (cur' ++ [d]) total')).
    { intros docs' cur' total' popped -> Hdocs'. apply IH; [| assumption].
      rewrite concat_app. simpl. rewrite app_nil_r, <- app_assoc.
      eapply substring_trans; [| exact Hrun].
      rewrite concat_app, <- app_assoc. apply substring_app_r. }
    destruct (_ <? _); [| now apply (Hnext docs current_doc _ [])].
    destruct current_doc as [| d0 rest];
      [now apply (Hnext docs [] _ []) |].
    destruct (pop_loop_keeps_suffix (Py.len (@nil N)) (Py.len d) (d0 :: rest)
                total) as [popped Hp].
    destruct (Splitter.pop_loop _ _ _ _ _) as [cur' total'].
    simpl in Hp. apply (Hnext _ cur' _ popped Hp).
    now apply append_doc_inside.
Qed.

Lemma merge_splits_inside (splits : list (list N)) :
  inside (concat splits) ->
  Forall inside (Splitter._merge_splits self splits []).
Proof.
  intros Hrun. unfold Splitter._merge_splits.
  apply merge_loop_inside; [exact Hrun | constructor].
Qed.

End Substrings.

Section SubstringsOfPieces.
Variable self : Splitter.t.

Lemma split_loop_inside (text : list N)
    (recurse : option (list N -> list (list N)))
    (splits final_chunks _good_splits : list (list N)) :
  (forall f, recurse = Some f ->
             forall s, Forall (fun chunk => substring chunk s) (f s)) ->
  substring (concat _good_splits ++ concat splits) text ->
  Forall (fun chunk => substring chunk text) final_chunks ->
  Forall (fun chunk => substring chunk text)
    (Splitter.split_loop self recurse splits final_chunks _good_splits).
Proof.
  intros Hrec. revert final_chunks _good_splits.
  induction splits as [| s splits IH]; intros final good Hrun Hfinal; simpl.
  - simpl in Hrun. rewrite app_nil_r in Hrun.
    destruct good as [| g good']; [assumption |].
    apply Forall_app. split; [assumption |].
    now apply merge_splits_inside.
  - simpl in Hrun.
    destruct (_ <? _).
    + apply IH; [| assumption].
      now rewrite concat_app, <- app_assoc; simpl; rewrite app_nil_r.
    + assert (Hgood : substring (concat good) text)
        by (eapply substring_trans; [apply substring_app_l | exact Hrun]).
      assert (Hpiece : substring s text).
      { eapply substring_trans; [| exact Hrun].
        eapply substring_trans; [apply substring_app_l | apply substring_app_r]. }
      apply IH.
      * simpl. eapply substring_trans; [| exact Hrun].
        rewrite app_assoc. apply substring_app_r.
      * assert (Hflushed : Forall (fun chunk => substring chunk text)
          match good with
          | [] => final
          | _ :: _ => final ++ Splitter._merge_splits self good []
          end).
        { destruct good as [| g good']; [assumption |].
          apply Forall_app. split; [assumption |].
          now apply merge_splits_inside. }
        destruct recurse as [f |]; apply Forall_app; (split; [assumption |]).
        -- eapply Forall_impl; [apply (Hrec f eq_refl s) |].
           intros chunk Hchunk. now apply (substring_trans _ s).
        -- now repeat constructor.
Qed.

Lemma split_with_inside (separator text : list N)
    (recurse : option (list N -> list (list N))) :
  (forall f, recurse = Some f ->
             forall s, Forall (fun chunk => substring chunk s) (f s)) ->
  Forall (fun chunk => substring chunk text)
    (Splitter.split_with self separator recurse text).
Proof.
  intros Hrec. unfold Splitter.split_with.
  apply split_loop_inside; [assumption | | constructor].
  simpl. rewrite split_pieces_concat. apply substring_refl.
Qed.

Lemma split_text_rec_inside (s : list N) (rest : list (list N))
    (text : list N) :
  Forall (fun chunk => substring chunk text)
    (Splitter._split_text self s rest text).
Proof.
  revert s text. induction rest as [| s' rest' IH]; intros s text.
  - destruct s; simpl; apply split_with_inside; discriminate.
  - simpl. destruct s as [| c s]; [apply split_with_inside; discriminate |].
    destruct (Py.contains (c :: s) text); [| apply IH].
    apply split_with_inside. intros f [= <-] piece. apply IH.
Qed.

End SubstringsOfPieces.

(** Every chunk is a run of consecutive characters of one of the input
    documents, and carries that document's metadata: the splitter neither
    invents nor reorders text. *)
Theorem chunks_are_substrings (self : DocumentProcessor.t)
    (documents : list Document) (d : Document) :
  d ∈ DocumentProcessor.split_documents self documents ->
  exists d0, d0 ∈ documents /\ metadata d = metadata d0
             /\ substring (page_content d) (page_content d0).
Proof.
  unfold DocumentProcessor.split_documents, Splitter.split_documents.
  intros Hd. apply list_elem_of_bind in Hd as (d0 & Hd & Hd0).
  apply list_elem_of_fmap in Hd as (chunk & -> & Hchunk).
  exists d0. repeat split; [assumption |]. simpl.
  unfold Splitter.split_text in Hchunk.
  destruct (Splitter._separators _) as [| s rest]; [inversion Hchunk |].
  pose proof (split_text_rec_inside (DocumentProcessor.text_splitter self)
                s rest (page_content d0)) as Hall.
  eapply Forall_forall in Hall; [exact Hall | exact Hchunk].
Qed.

Lemma chunks_are_substrings_witness :
  exists d0,
    d0 ∈ [mkDocument (Py.lit "ab cd ef gh ij kl mn") ∅]
    /\ (∅ : gmap (list N) pyval) = metadata d0
    /\ substring (Py.lit "ef gh ij") (page_content d0).
Proof.
  apply (chunks_are_substrings Demo.processor
           [mkDocument (Py.lit "ab cd ef gh ij kl mn") ∅]
           (mkDocument (Py.lit "ef gh ij") ∅)).
  apply list_elem_of_further, list_elem_of_here.
Defined.

(** *** Nothing but whitespace is lost *)

Lemma laid_out_nil (text : list N) : laid_out_upto 0 text [].
Proof.
  exists []. split; [reflexivity |]. split; [constructor |].
  intros before c after _ _ Hlt. lia.
Qed.

Lemma laid_out_weaken (upto upto' : nat) (text : list N)
    (chunks : list (list N)) :
  (upto' <= upto)%nat -> laid_out_upto upto text chunks ->
  laid_out_upto upto' text chunks.
Proof.
  intros Hle (placements & Hsnd & Hsits & Hcover).
  exists placements. repeat split; [assumption.. |].
  intros before c after Htext Hvisible Hlt.
  apply (Hcover before c after Htext Hvisible). lia.
Qed.

(** Where an occurrence falls when a text is read as two parts. *)
Lemma split_at_occurrence (u v x y : list N) (c : N) :
  u ++ v = x ++ c :: y ->
  (exists y1, u = x ++ c :: y1 /\ y = y1 ++ v)
  \/ (exists x2, x = u ++ x2 /\ v = x2 ++ c :: y).
Proof.
  revert x. induction u as [| a u IH]; intros x Heq.
  - right. now exists x.
  - destruct x as [| b x]; simpl in Heq; injection Heq as -> Heq.
    + left. now exists u.
    + destruct (IH x Heq) as [(y1 & -> & ->) | (x2 & -> & ->)].
      * left. now exists y1.
      * right. now exists x2.
Qed.

(** An occurrence at an offset within the middle part lies in it. *)
Lemma locate (a sub b before after : list N) (c : N) :
  a ++ sub ++ b = before ++ c :: after ->
  (length a <= length before)%nat ->
  (length before < length a + length sub)%nat ->
  exists before' after',
    before = a ++ before' /\ sub = before' ++ c :: after'
    /\ after = after' ++ b.
Proof.
  intros Heq Hge Hlt.
  destruct (split_at_occurrence _ _ _ _ _ Heq)
    as [(y1 & -> & _) | (x2 & -> & Hrest)].
  { rewrite length_app in Hge. simpl in Hge. lia. }
  destruct (split_at_occurrence _ _ _ _ _ Hrest)
    as [(y1 & -> & ->) | (x3 & -> & _)].
  - now exists x2, y1.
  - rewrite !length_app in Hlt. lia.
Qed.

Lemma snd_shift (k : nat) (placements : list (nat * list N)) :
  snd <$> ((fun pc : nat * list N => ((k + pc.1)%nat, pc.2)) <$> placements)
  = snd <$> placements.
Proof.
  induction placements as [| pc placements IH]; [reflexivity |].
  csimpl. now rewrite IH.
Qed.

(** Chunks laid out on a part of the text are laid out on the text, after
    the chunks that cover what comes before that part. *)
Lemma laid_out_app (a sub b text : list N) (final chunks : list (list N)) :
  text = a ++ sub ++ b ->
  laid_out_upto (length a) text final -> laid_out sub chunks ->
  laid_out_upto (length a + length sub) text (final ++ chunks).
Proof.
  intros Htext (pl1 & Hsnd1 & Hsits1 & Hcover1) (pl2 & Hsnd2 & Hsits2 & Hcover2).
  exists (pl1 ++ ((fun pc : nat * list N => ((length a + pc.1)%nat, pc.2))
                    <$> pl2)).
  split; [| split].
  - now rewrite fmap_app, snd_shift, Hsnd1, Hsnd2.
  - apply Forall_app. split; [assumption |].
    apply Forall_fmap. eapply Forall_impl; [exact Hsits2 |].
    intros [o chunk] (l & r & Hsub & Hl). simpl in *.
    exists (a ++ l), (r ++ b). split.
    + rewrite Htext, Hsub. now rewrite <- !app_assoc.
    + rewrite length_app. simpl. lia.
  - intros before c after Hocc Hvisible Hlt.
    apply Exists_app.
    destruct (decide (length before < length a)%nat) as [Hearly | Hlate].
    + left. now apply (Hcover1 before c after).
    + right. rewrite Htext in Hocc.
      destruct (locate a sub b before after c Hocc ltac:(lia) Hlt)
        as (before' & after' & -> & Hsub & _).
      apply Exists_fmap.
      eapply Exists_impl;
        [apply (Hcover2 before' c after' Hsub Hvisible);
         rewrite Hsub, length_app; simpl; lia |].
      intros [o chunk]. unfold inside. simpl. rewrite length_app. lia.
Qed.

Lemma laid_out_single (s : list N) : laid_out s [s].
Proof.
  exists [(0%nat, s)]. split; [reflexivity |]. split.
  - constructor; [| constructor]. exists [], []. simpl.
    now rewrite app_nil_r.
  - intros before c after -> _ _. constructor. unfold inside. simpl.
    rewrite length_app. simpl. lia.
Qed.

(** A chunk is placed once: one [ab] cannot stand for both halves of
    [abab]. *)
Lemma laid_out_counts_occurrences :
  ~ laid_out (Py.lit "abab") [Py.lit "ab"].
Proof.
  intros (pl & Hsnd & _ & Hcover).
  destruct pl as [| [o chunk] [| ? ?]]; try discriminate.
  injection Hsnd as ->.
  pose proof (Hcover [] 97%N (Py.lit "bab") eq_refl eq_refl
                ltac:(simpl; lia)) as Hfirst.
  pose proof (Hcover (Py.lit "aba") 98%N [] eq_refl eq_refl
                ltac:(simpl; lia)) as Hlast.
  apply Exists_cons in Hfirst as [Hfirst | Hfirst]; [| inversion Hfirst].
  apply Exists_cons in Hlast as [Hlast | Hlast]; [| inversion Hlast].
  unfold inside in *. simpl in *. lia.
Qed.

Lemma lstrip_layout (s : list N) :
  exists ws, s = ws ++ Py.lstrip s /\ Forall (fun c => Py.isspace c = true) ws.
Proof.
  induction s as [| c s (ws & IH & Hws)]; [now exists [] |]. simpl.
  destruct (Py.isspace c) eqn:Hc; [| now exists []].
  exists (c :: ws). split; [simpl; now rewrite <- IH | now constructor].
Qed.

(** [strip] removes a run of whitespace at either end and nothing
    else. *)
Lemma strip_layout (s : list N) :
  exists ws1 ws2,
    s = ws1 ++ Py.strip s ++ ws2
    /\ Forall (fun c => Py.isspace c = true) ws1
    /\ Forall (fun c => Py.isspace c = true) ws2.
Proof.
  unfold Py.strip, Py.rstrip.
  destruct (lstrip_layout (reverse s)) as (ws2 & Hr & Hws2).
  destruct (lstrip_layout (reverse (Py.lstrip (reverse s))))
    as (ws1 & Hl & Hws1).
  exists ws1, (reverse ws2). repeat split; [| assumption |].
  - rewrite app_assoc, <- Hl, <- reverse_app, <- Hr.
    now rewrite reverse_involutive.
  - now apply Forall_reverse.
Qed.

Lemma visible_between (ws1 st ws2 before after : list N) (c : N) :
  ws1 ++ st ++ ws2 = before ++ c :: after ->
  Forall (fun c => Py.isspace c = true) ws1 ->
  Forall (fun c => Py.isspace c = true) ws2 ->
  Py.isspace c = false ->
  (length ws1 <= length before < length ws1 + length st)%nat.
Proof.
  intros Heq Hws1 Hws2 Hvisible.
  assert (Hnot : forall ws, Forall (fun c => Py.isspace c = true) ws ->
                            c ∉ ws).
  { intros ws Hws Hin. eapply Forall_forall in Hws; [| exact Hin].
    congruence. }
  destruct (split_at_occurrence _ _ _ _ _ Heq)
    as [(y1 & -> & _) | (x2 & -> & Hrest)].
  { exfalso. apply (Hnot _ Hws1). apply elem_of_app. right.
    apply list_elem_of_here. }
  destruct (split_at_occurrence _ _ _ _ _ Hrest)
    as [(y1 & -> & _) | (x3 & -> & ->)].
  - rewrite !length_app. simpl. lia.
  - exfalso. apply (Hnot _ Hws2). apply elem_of_app. right.
    apply list_elem_of_here.
Qed.

(** What [_join_docs] keeps of a text is laid out on it. *)
Lemma stripped_laid_out (s : list N) :
  laid_out s match Py.strip s with
             | [] => []
             | chunk => [chunk]
             end.
Proof.
  destruct (strip_layout s) as (ws1 & ws2 & Hs & Hws1 & Hws2).
  assert (Hin : forall before c after,
    s = before ++ c :: after -> Py.isspace c = false ->
    (length ws1 <= length before < length ws1 + length (Py.strip s))%nat).
  { intros before c after Hocc Hvisible. rewrite Hs in Hocc at 1.
    now apply (visible_between ws1 (Py.strip s) ws2 before after c). }
  destruct (Py.strip s) as [| x chunk] eqn:Hstrip.
  - exists []. split; [reflexivity |]. split; [constructor |].
    intros before c after Hocc Hvisible _.
    pose proof (Hin before c after Hocc Hvisible) as Hrange.
    simpl in Hrange. lia.
  - exists [(length ws1, x :: chunk)]. split; [reflexivity |]. split.
    + constructor; [| constructor]. now exists ws1, ws2.
    + intros before c after Hocc Hvisible _. constructor.
      exact (Hin before c after Hocc Hvisible).
Qed.

Lemma append_doc_join (docs current_doc : list (list N)) :
  Splitter.append_doc docs (Splitter._join_docs current_doc [])
  = docs ++ match Py.strip (concat current_doc) with
            | [] => []
            | chunk => [chunk]
            end.
Proof.
  unfold Splitter.append_doc, Splitter._join_docs.
  rewrite join_empty_separator.
  destruct (Py.strip _); [now rewrite app_nil_r | reflexivity].
Qed.

Section Layout.
Variable self : Splitter.t.

(** The merge loop, on pieces that make up [text] after the part [done]
    already covered: the chunks it returns cover the whole text. *)
Lemma merge_loop_laid_out (text : list N)
    (splits docs current_doc : list (list N)) (total : Z) (done : list N) :
  text = done ++ concat current_doc ++ concat splits ->
  laid_out_upto (length done) text docs ->
  laid_out text (Splitter.merge_loop self [] splits docs current_doc total).
Proof.
  revert docs current_doc total done.
  induction splits as [| d splits IH];
    intros docs current_doc total done Htext Hdocs; simpl.
  - rewrite append_doc_join. unfold laid_out.
    replace (length text) with (length done + length (concat current_doc))%nat
      by (rewrite Htext, !length_app; simpl; lia).
    apply (laid_out_app done (concat current_doc) []);
      [now simpl in Htext | assumption | apply stripped_laid_out].
  - assert (Hnext : forall docs' cur' total' done',
      text = done' ++ concat cur' ++ d ++ concat splits ->
      laid_out_upto (length done') text docs' ->
      laid_out text
        (Splitter.merge_loop self [] splits docs' (cur' ++ [d]) total')).
    { intros docs' cur' total' done' Htext' Hdocs'.
      apply (IH _ _ _ done'); [| assumption].
      rewrite concat_app. simpl. now rewrite app_nil_r, <- app_assoc. }
    simpl in Htext.
    destruct (_ <? _); [| now apply (Hnext _ _ _ done)].
    destruct current_doc as [| d0 rest]; [now apply (Hnext _ _ _ done) |].
    destruct (pop_loop_keeps_suffix self (Py.len (@nil N)) (Py.len d)
                (d0 :: rest) total) as [popped Hp].
    destruct (Splitter.pop_loop _ _ _ _ _) as [cur' total'].
    simpl in Hp.
    apply (Hnext _ cur' _ (done ++ concat popped)).
    + rewrite Htext, Hp, concat_app. now rewrite <- !app_assoc.
    + rewrite append_doc_join.
      apply (laid_out_weaken (length done + length (concat (d0 :: rest)))).
      * rewrite Hp, concat_app, !length_app. lia.
      * apply (laid_out_app done (concat (d0 :: rest)) (d ++ concat splits));
          [exact Htext | assumption | apply stripped_laid_out].
Qed.

Lemma merge_splits_laid_out (splits : list (list N)) :
  laid_out (concat splits) (Splitter._merge_splits self splits []).
Proof.
  unfold Splitter._merge_splits.
  apply (merge_loop_laid_out _ _ _ _ _ []); [reflexivity |].
  apply laid_out_nil.
Qed.

(** The good pieces collected so far, merged, extend the cover by their
    text. *)
Lemma flush_laid_out (text done rest : list N)
    (final_chunks _good_splits : list (list N)) :
  text = done ++ concat _good_splits ++ rest ->
  laid_out_upto (length done) text final_chunks ->
  laid_out_upto (length (done ++ concat _good_splits)) text
    match _good_splits with
    | [] => final_chunks
    | _ :: _ => final_chunks ++ Splitter._merge_splits self _good_splits []
    end.
Proof.
  intros Htext Hfinal. rewrite length_app.
  destruct _good_splits as [| g good'].
  - simpl. now rewrite Nat.add_0_r.
  - apply (laid_out_app done (concat (g :: good')) rest);
      [assumption | assumption | apply merge_splits_laid_out].
Qed.

Lemma split_loop_laid_out (text : list N)
    (recurse : option (list N -> list (list N)))
    (splits final_chunks _good_splits : list (list N)) (done : list N) :
  (forall f, recurse = Some f -> forall s, laid_out s (f s)) ->
  text = done ++ concat _good_splits ++ concat splits ->
  laid_out_upto (length done) text final_chunks ->
  laid_out text
    (Splitter.split_loop self recurse splits final_chunks _good_splits).
Proof.
  intros Hrec. revert final_chunks _good_splits done.
  induction splits as [| s splits IH]; intros final good done Htext Hfinal;
    simpl.
  - simpl in Htext. unfold laid_out.
    replace (length text) with (length (done ++ concat good))
      by (now rewrite Htext, app_nil_r).
    now apply (flush_laid_out text done []).
  - simpl in Htext. destruct (_ <? _).
    + apply (IH _ _ done); [| assumption].
      rewrite concat_app. simpl. now rewrite app_nil_r, <- app_assoc.
    + pose proof (flush_laid_out text done (s ++ concat splits) final good
                    Htext Hfinal) as Hflushed.
      apply (IH _ _ ((done ++ concat good) ++ s)).
      * simpl. rewrite Htext. now rewrite <- !app_assoc.
      * rewrite (length_app (done ++ concat good)).
        destruct recurse as [f |].
        -- apply (laid_out_app (done ++ concat good) s (concat splits));
             [rewrite Htext; now rewrite <- !app_assoc | assumption
             | now apply (Hrec f)].
        -- apply (laid_out_app (done ++ concat good) s (concat splits));
             [rewrite Htext; now rewrite <- !app_assoc | assumption
             | apply laid_out_single].
Qed.

Lemma split_with_laid_out (separator text : list N)
    (recurse : option (list N -> list (list N))) :
  (forall f, recurse = Some f -> forall s, laid_out s (f s)) ->
  laid_out text (Splitter.split_with self separator recurse text).
Proof.
  intros Hrec. unfold Splitter.split_with.
  apply (split_loop_laid_out _ _ _ _ _ []); [assumption | |].
  - simpl. now rewrite split_pieces_concat.
  - apply laid_out_nil.
Qed.

Lemma split_text_rec_laid_out (s : list N) (rest : list (list N))
    (text : list N) :
  laid_out text (Splitter._split_text self s rest text).
Proof.
  revert s text. induction rest as [| s' rest' IH]; intros s text.
  - destruct s; simpl; apply split_with_laid_out; discriminate.
  - simpl. destruct s as [| x s]; [apply split_with_laid_out; discriminate |].
    destruct (Py.contains (x :: s) text); [| apply IH].
    apply split_with_laid_out. intros f [= <-] piece. apply IH.
Qed.

End Layout.

(** Only whitespace is ever dropped, occurrence by occurrence: the
    chunks made from a document can be placed on its text, each chunk at
    an offset from which the text reads exactly that chunk, so that every
    position of the text that holds a character other than whitespace
    lies inside one of the placed chunks. *)
Theorem visible_occurrences_survive (settings : Config.Settings)
    (chunk_size chunk_overlap : option Z) (self : DocumentProcessor.t)
    (doc : Document) :
  DocumentProcessor.__init__ settings chunk_size chunk_overlap = Ok self ->
  laid_out (page_content doc)
    (page_content <$> DocumentProcessor.split_documents self [doc]).
Proof.
  intros Hinit. apply init_valid in Hinit as (Hsplitter & _ & _).
  unfold DocumentProcessor.split_documents.
  rewrite split_documents_singleton.
  unfold Splitter.split_text. rewrite Hsplitter. simpl Splitter._separators.
  rewrite <- Hsplitter. apply split_text_rec_laid_out.
Qed.

Lemma visible_occurrences_survive_witness :
  laid_out (Py.lit "abab abab abab")
    (page_content
       <$> DocumentProcessor.split_documents Demo.processor
             [mkDocument (Py.lit "abab abab abab") ∅]).
Proof.
  apply (visible_occurrences_survive Demo.settings None None Demo.processor
           (mkDocument (Py.lit "abab abab abab") ∅)).
  reflexivity.
Defined.

(** *** Texts shorter than the chunk size *)

Lemma piece_len_le_concat (pieces : list (list N)) (piece : list N) :
  piece ∈ pieces -> Py.len piece <= Py.len (concat pieces).
Proof.
  intros Hin. apply list_elem_of_split in Hin as (l1 & l2 & ->).
  rewrite concat_app. simpl. rewrite !len_app.
  pose proof (len_nonneg (concat l1)). pose proof (len_nonneg (concat l2)).
  lia.
Qed.

Lemma split_with_short (self : Splitter.t) (separator text : list N)
    (recurse : option (list N -> list (list N))) :
  Py.len text < Splitter._chunk_size self ->
  Splitter.split_with self separator recurse text
  = match Py.strip text with
    | [] => []
    | chunk => [chunk]
    end.
Proof.
  intros Hshort. unfold Splitter.split_with.
  pose proof (split_pieces_concat text separator) as Hcat.
  set (pieces := Splitter._split_text_with_regex text separator) in *.
  rewrite split_loop_all_good.
  - simpl app. destruct pieces as [| s pieces'] eqn:Hp.
    + simpl in Hcat. now subst text.
    + rewrite <- Hp in *. unfold Splitter._merge_splits.
      change 0 with (Py.len (concat (@nil (list N)))).
      rewrite merge_loop_fits by (simpl; rewrite len_nil, Hcat; lia).
      simpl app. unfold Splitter._join_docs.
      rewrite join_empty_separator, Hcat.
      now destruct (Py.strip text).
  - apply Forall_forall. intros piece Hin.
    pose proof (piece_len_le_concat pieces piece Hin) as Hle.
    rewrite Hcat in Hle. lia.
Qed.

Lemma split_text_rec_short (self : Splitter.t) (s : list N)
    (rest : list (list N)) (text : list N) :
  Py.len text < Splitter._chunk_size self ->
  Splitter._split_text self s rest text
  = match Py.strip text with
    | [] => []
    | chunk => [chunk]
    end.
Proof.
  intros Hshort. revert s. induction rest as [| s' rest' IH]; intros s.
  - destruct s; simpl; now apply split_with_short.
  - simpl. destruct s as [| c s]; [now apply split_with_short |].
    destruct (Py.contains (c :: s) text); [now apply split_with_short | apply IH].
Qed.

Lemma split_text_short (self : Splitter.t) (text : list N) :
  Splitter._separators self <> [] ->
  Py.len text < Splitter._chunk_size self ->
  Splitter.split_text self text
  = match Py.strip text with
    | [] => []
    | chunk => [chunk]
    end.
Proof.
  intros Hseps Hshort. unfold Splitter.split_text.
  destruct (Splitter._separators self) as [| s rest]; [contradiction |].
  now apply split_text_rec_short.
Qed.

(** A document shorter than the chunk size comes back as one chunk, its
    text stripped of leading and trailing whitespace, with its metadata;
    a document that is empty or all whitespace yields no chunk at all. *)
Theorem short_documents_are_stripped (settings : Config.Settings)
    (chunk_size chunk_overlap : option Z) (self : DocumentProcessor.t)
    (documents : list Document) :
  DocumentProcessor.__init__ settings chunk_size chunk_overlap = Ok self ->
  Forall (fun d => Py.len (page_content d)
                   < DocumentProcessor.self_chunk_size self) documents ->
  DocumentProcessor.split_documents self documents
  = d ← documents;
    match Py.strip (page_content d) with
    | [] => []
    | chunk => [mkDocument chunk (metadata d)]
    end.
Proof.
  intros Hinit Hshort. apply init_valid in Hinit as (Hsplitter & _ & _).
  unfold DocumentProcessor.split_documents, Splitter.split_documents.
  rewrite Hsplitter.
  induction Hshort as [| d documents Hd _ IH]; [reflexivity |].
  rewrite !bind_cons, IH. f_equal.
  rewrite split_text_short; [| discriminate | exact Hd].
  now destruct (Py.strip (page_content d)).
Qed.

Lemma short_documents_are_stripped_witness :
  DocumentProcessor.split_documents Demo.processor
    [mkDocument (Py.lit "  a b ") ∅; mkDocument (Py.lit "   ") ∅;
     mkDocument [] ∅]
  = [mkDocument (Py.lit "a b") ∅].
Proof.
  rewrite (short_documents_are_stripped Demo.settings None None
             Demo.processor _ eq_refl).
  - reflexivity.
  - repeat constructor.
Defined.

(** ** Texts cut by character count: getting the text back *)

Lemma unoverlap_snoc (k : nat) (docs : list (list N)) (chunk : list N) :
  docs <> [] ->
  unoverlap k (docs ++ [chunk]) = unoverlap k docs ++ drop k chunk.
Proof.
  destruct docs as [| first rest]; [contradiction |]. intros _. simpl.
  rewrite fmap_app, concat_app. simpl. now rewrite app_nil_r, app_assoc.
Qed.

Lemma unoverlap_zero (chunks : list (list N)) :
  unoverlap 0 chunks = concat chunks.
Proof.
  destruct chunks as [| first rest]; [reflexivity |]. simpl. f_equal.
  induction rest as [| x rest IH]; [reflexivity |]. csimpl. now rewrite IH.
Qed.

Section HardCutRebuild.
Variable self : Splitter.t.
Hypothesis overlap_nonnegative : 0 <= Splitter._chunk_overlap self.
Hypothesis overlap_smaller :
  Splitter._chunk_overlap self < Splitter._chunk_size self.

Local Abbreviation chars text := ((fun c : N => [c]) <$> text).
Local Abbreviation no_whitespace :=
  (Forall (fun c : N => Py.isspace c = false)).
Local Abbreviation keep := (Z.to_nat (Splitter._chunk_overlap self)).

(** The pop loop on single characters, also for an overlap of zero, where
    it empties [current_doc]. *)
Lemma pop_loop_chars_keep (u : list N) :
  Py.len u <= Splitter._chunk_size self ->
  Splitter.pop_loop self 0 1 (chars u) (Py.len u)
  = (chars (drop (length u - keep) u),
     Z.min (Py.len u) (Splitter._chunk_overlap self)).
Proof.
  induction u as [| x u IH]; intros Hfit.
  - simpl. rewrite len_nil. f_equal. lia.
  - rewrite fmap_cons. cbn [Splitter.pop_loop].
    rewrite !sep_if_longer_zero.
    destruct (Z.ltb_spec (Splitter._chunk_overlap self) (Py.len (x :: u)))
      as [Hpop | Hstop]; simpl orb.
    + replace (Py.len (x :: u) - (Py.len [x] + 0)) with (Py.len u)
        by (unfold Py.len; simpl; lia).
      rewrite IH by (unfold Py.len in *; simpl in *; lia).
      replace (length (x :: u) - keep)%nat with (S (length u - keep))
        by (unfold Py.len in *; simpl in *; lia).
      simpl. f_equal. unfold Py.len in *. simpl in *. lia.
    + destruct (Z.ltb_spec (Splitter._chunk_size self)
                  (Py.len (x :: u) + 1 + 0)); [lia |].
      simpl andb. cbv iota.
      replace (length (x :: u) - keep)%nat with 0%nat
        by (unfold Py.len in *; simpl in *; lia).
      rewrite drop_0. f_equal. lia.
Qed.

(** Merging single characters: the chunks, with the overlap taken off
    all but the first, spell the text consumed so far. *)
Lemma merge_chars_rebuild (rest u : list N) (docs : list (list N))
    (consumed : list N) :
  no_whitespace rest -> no_whitespace u ->
  Py.len u <= Splitter._chunk_size self ->
  (docs = [] /\ consumed = u)
  \/ (docs <> [] /\ u <> [] /\ (keep <= length u)%nat
      /\ consumed = unoverlap keep docs ++ drop keep u) ->
  unoverlap keep
    (Splitter.merge_loop self [] (chars rest) docs (chars u) (Py.len u))
  = consumed ++ rest.
Proof.
  revert u docs consumed.
  induction rest as [| c rest IH]; intros u docs consumed Hrest Hu Hfit Hinv.
  - simpl. unfold Splitter._join_docs.
    rewrite join_empty_separator, concat_chars, (strip_no_whitespace u Hu).
    rewrite app_nil_r.
    destruct Hinv as [[-> ->] | (Hdocs & Hne & _ & ->)].
    + destruct u; [reflexivity | simpl; now rewrite app_nil_r].
    + destruct u as [| x u]; [contradiction |]. simpl Splitter.append_doc.
      now apply unoverlap_snoc.
  - apply Forall_cons in Hrest as [Hc Hrest].
    rewrite fmap_cons. cbn [Splitter.merge_loop].
    change (Py.len (@nil N)) with 0. change (Py.len [c]) with 1.
    rewrite sep_if_longer_zero.
    assert (Hnext : forall docs' u',
      no_whitespace u' -> Py.len u' + 1 <= Splitter._chunk_size self ->
      (docs' = [] /\ consumed ++ [c] = u' ++ [c])
      \/ (docs' <> [] /\ (keep <= length (u' ++ [c]))%nat
          /\ consumed ++ [c] = unoverlap keep docs' ++ drop keep (u' ++ [c])) ->
      unoverlap keep
        (Splitter.merge_loop self [] (chars rest) docs' (chars u' ++ [[c]])
           (Py.len u' + (1 + Splitter.sep_if_longer 0 (chars u' ++ [[c]]) 1)))
      = consumed ++ c :: rest).
    { intros docs' u' Hu' Hroom Hinv'.
      rewrite sep_if_longer_zero.
      replace (Py.len u' + (1 + 0)) with (Py.len (u' ++ [c]))
        by (rewrite len_app; unfold Py.len; simpl; lia).
      replace (chars u' ++ [[c]]) with (chars (u' ++ [c]))
        by now rewrite fmap_app.
      rewrite (IH (u' ++ [c]) docs' (consumed ++ [c])).
      - now rewrite <- app_assoc.
      - assumption.
      - apply Forall_app. split; [assumption | now repeat constructor].
      - rewrite len_app. unfold Py.len in *. simpl. lia.
      - destruct Hinv' as [[-> ->] | (Hdocs' & Hlen & ->)]; [now left |].
        right. repeat split; try assumption. now destruct u'. }
    destruct (Z.ltb_spec (Splitter._chunk_size self) (Py.len u + 1 + 0))
      as [Hfull | Hroom].
    + assert (Hsize : Py.len u = Splitter._chunk_size self) by lia.
      destruct (chars u) as [| d0 ds] eqn:Hchars.
      { destruct u; [rewrite len_nil in Hsize; lia | discriminate]. }
      cbv iota beta. rewrite <- Hchars, (pop_loop_chars_keep u Hfit).
      cbv iota beta.
      replace (Z.min (Py.len u) (Splitter._chunk_overlap self))
        with (Py.len (drop (length u - keep) u))
        by (unfold Py.len in *; rewrite length_drop; lia).
      unfold Splitter._join_docs at 1.
      rewrite join_empty_separator, concat_chars, (strip_no_whitespace u Hu).
      assert (Hu_nonempty : u <> []) by (intros ->; discriminate).
      destruct u as [| x u]; [contradiction |].
      cbn [Splitter.append_doc].
      assert (Hkept : length (drop (length (x :: u) - keep) (x :: u)) = keep)
        by (unfold Py.len in *; rewrite length_drop; lia).
      apply Hnext.
      * apply Forall_drop. exact Hu.
      * unfold Py.len in *. rewrite Hkept. lia.
      * right. split; [now destruct docs |].
        split; [rewrite length_app, Hkept; lia |].
        rewrite drop_app_length' by (symmetry; exact Hkept). f_equal.
        destruct Hinv as [[-> ->] | (Hdocs & _ & _ & ->)].
        -- simpl. now rewrite app_nil_r.
        -- now rewrite unoverlap_snoc.
    + apply Hnext; [assumption | lia |].
      destruct Hinv as [[-> ->] | (Hdocs & Hne & Hlen & ->)]; [now left |].
      right. split; [assumption |].
      split; [rewrite length_app; lia |].
      rewrite drop_app_le by exact Hlen. now rewrite app_assoc.
Qed.

(** With a chunk size of one every character is its own piece, too long
    to merge, and is emitted as it is. *)
Lemma split_loop_all_raw (splits final_chunks : list (list N)) :
  Forall (fun s => Splitter._chunk_size self <= Py.len s) splits ->
  Splitter.split_loop self None splits final_chunks [] = final_chunks ++ splits.
Proof.
  intros Hbig. revert final_chunks.
  induction Hbig as [| s splits Hs _ IH]; intros final; simpl.
  - now rewrite app_nil_r.
  - destruct (Z.ltb_spec (Py.len s) (Splitter._chunk_size self)); [lia |].
    rewrite IH, <- app_assoc. reflexivity.
Qed.

Lemma hard_cut_rebuild (text : list N) :
  no_whitespace text ->
  unoverlap keep (Splitter.split_with self [] None text) = text.
Proof.
  intros Htext. unfold Splitter.split_with. rewrite split_into_characters.
  destruct (decide (Splitter._chunk_size self = 1)) as [Hone | Hmore].
  - rewrite split_loop_all_raw.
    + replace keep with 0%nat by lia.
      rewrite unoverlap_zero. simpl app. apply concat_chars.
    + apply Forall_fmap, Forall_forall. intros c _. simpl.
      change (Py.len [c]) with 1. lia.
  - rewrite split_loop_all_good.
    + simpl app. destruct (chars text) as [| d ds] eqn:Hchars.
      { now destruct text. }
      rewrite <- Hchars. unfold Splitter._merge_splits.
      change 0 with (Py.len (@nil N)).
      change (@nil (list N)) with (chars []) at 2.
      rewrite (merge_chars_rebuild text [] [] []);
        [reflexivity | assumption | constructor | rewrite len_nil; lia
        | now left].
    + apply Forall_fmap, Forall_forall. intros c _. simpl.
      change (Py.len [c]) with 1. lia.
Qed.

End HardCutRebuild.

(** For text without whitespace and an overlap smaller than the chunk
    size, the chunks give the text back: the first chunk, followed by
    every later chunk without its first [chunk_overlap] characters, is
    the text of the document. *)
Theorem hard_cut_chunks_rebuild_text (settings : Config.Settings)
    (chunk_size chunk_overlap : option Z) (self : DocumentProcessor.t)
    (doc : Document) :
  DocumentProcessor.__init__ settings chunk_size chunk_overlap = Ok self ->
  DocumentProcessor.self_chunk_overlap self
    < DocumentProcessor.self_chunk_size self ->
  Forall (fun c => Py.isspace c = false) (page_content doc) ->
  unoverlap (Z.to_nat (DocumentProcessor.self_chunk_overlap self))
    (page_content <$> DocumentProcessor.split_documents self [doc])
  = page_content doc.
Proof.
  intros Hinit Hsmaller Htext.
  apply init_valid in Hinit as (Hsplitter & Hsize & Hoverlap & _).
  unfold DocumentProcessor.split_documents.
  rewrite split_documents_singleton, Hsplitter.
  rewrite (split_text_no_whitespace _ _ _ Htext).
  now apply (hard_cut_rebuild
               (Splitter.mk (DocumentProcessor.self_chunk_size self)
                  (DocumentProcessor.self_chunk_overlap self)
                  DocumentProcessor.separators)).
Qed.

Lemma hard_cut_chunks_rebuild_text_witness :
  unoverlap 3
    [Py.lit "abcdefghij"; Py.lit "hijklmnopq"; Py.lit "opqrstuvwx";
     Py.lit "vwxyz"]
  = Py.lit "abcdefghijklmnopqrstuvwxyz".
Proof.
  apply (hard_cut_chunks_rebuild_text Demo.settings None None Demo.processor
           (mkDocument (Py.lit "abcdefghijklmnopqrstuvwxyz") ∅)).
  - reflexivity.
  - reflexivity.
  - repeat constructor.
Defined.

(** ** Texts cut by character count: sizes and number of chunks *)

Section HardCutShape.
Variable self : Splitter.t.
Hypothesis overlap_nonnegative : 0 <= Splitter._chunk_overlap self.
Hypothesis overlap_smaller :
  Splitter._chunk_overlap self < Splitter._chunk_size self.

Local Abbreviation chars text := ((fun c : N => [c]) <$> text).
Local Abbreviation no_whitespace :=
  (Forall (fun c : N => Py.isspace c = false)).
Local Abbreviation full :=
  (fun chunk : list N => Py.len chunk = Splitter._chunk_size self).
Local Abbreviation stride :=
  (Splitter._chunk_size self - Splitter._chunk_overlap self).

(** Every chunk but the last is full, and each full chunk accounts for
    [chunk_size - chunk_overlap] new characters; a last chunk that
    follows another holds more than the overlap. *)
Lemma merge_chars_shape (rest u : list N) (docs front : list (list N))
    (last_chunk : list N) :
  no_whitespace rest -> no_whitespace u ->
  Py.len u <= Splitter._chunk_size self ->
  Forall full docs ->
  docs = [] \/ Splitter._chunk_overlap self < Py.len u ->
  Splitter.merge_loop self [] (chars rest) docs (chars u) (Py.len u)
    = front ++ [last_chunk] ->
  Forall full front
  /\ Py.len front * stride + Py.len last_chunk
     = Py.len docs * stride + Py.len u + Py.len rest
  /\ Py.len last_chunk <= Splitter._chunk_size self
  /\ (front = [] \/ Splitter._chunk_overlap self < Py.len last_chunk).
Proof.
  revert u docs.
  induction rest as [| c rest IH]; intros u docs Hrest Hu Hfit Hdocs Hinv.
  - simpl. unfold Splitter._join_docs.
    rewrite join_empty_separator, concat_chars, (strip_no_whitespace u Hu).
    destruct u as [| x u]; simpl Splitter.append_doc.
    + destruct Hinv as [-> | Hne]; [| rewrite len_nil in Hne; lia].
      intros Hout. now destruct front.
    + intros Hout. apply app_inj_tail in Hout as [<- <-].
      split; [assumption |]. split; [rewrite len_nil; lia |].
      split; [assumption |]. destruct Hinv; [now left | now right].
  - apply Forall_cons in Hrest as [Hc Hrest].
    rewrite fmap_cons. cbn [Splitter.merge_loop].
    change (Py.len (@nil N)) with 0. change (Py.len [c]) with 1.
    rewrite sep_if_longer_zero.
    assert (Hlen_rest : Py.len (c :: rest) = Py.len rest + 1)
      by (unfold Py.len; simpl; lia).
    assert (Hnext : forall docs' u',
      no_whitespace u' -> Py.len u' + 1 <= Splitter._chunk_size self ->
      Forall full docs' ->
      docs' = [] \/ Splitter._chunk_overlap self < Py.len u' + 1 ->
      Py.len docs' * stride + Py.len u' = Py.len docs * stride + Py.len u ->
      Splitter.merge_loop self [] (chars rest) docs' (chars u' ++ [[c]])
        (Py.len u' + (1 + Splitter.sep_if_longer 0 (chars u' ++ [[c]]) 1))
        = front ++ [last_chunk] ->
      Forall full front
      /\ Py.len front * stride + Py.len last_chunk
         = Py.len docs * stride + Py.len u + Py.len (c :: rest)
      /\ Py.len last_chunk <= Splitter._chunk_size self
      /\ (front = [] \/ Splitter._chunk_overlap self < Py.len last_chunk)).
    { intros docs' u' Hu' Hroom Hdocs' Hinv' Hcount.
      rewrite sep_if_longer_zero.
      replace (Py.len u' + (1 + 0)) with (Py.len (u' ++ [c]))
        by (rewrite len_app; unfold Py.len; simpl; lia).
      replace (chars u' ++ [[c]]) with (chars (u' ++ [c]))
        by now rewrite fmap_app.
      intros Hout.
      apply IH in Hout as (Hfront & Hsum & Hlast & Hmore); try assumption.
      - split; [assumption |]. split; [| now split].
        rewrite Hsum, len_app, Hlen_rest. change (Py.len [c]) with 1. lia.
      - apply Forall_app. split; [assumption | now repeat constructor].
      - rewrite len_app. change (Py.len [c]) with 1. lia.
      - rewrite len_app. change (Py.len [c]) with 1. exact Hinv'. }
    destruct (Z.ltb_spec (Splitter._chunk_size self) (Py.len u + 1 + 0))
      as [Hfull | Hroom];
      [| apply Hnext; try assumption; [lia | destruct Hinv; [now left | right; lia]
                                       | lia]].
    assert (Hsize : Py.len u = Splitter._chunk_size self) by lia.
    destruct (chars u) as [| d0 ds] eqn:Hchars.
    { destruct u; [rewrite len_nil in Hsize; lia | discriminate]. }
    cbv iota beta.
    rewrite <- Hchars, (pop_loop_chars_keep self overlap_nonnegative
                          overlap_smaller u Hfit).
    cbv iota beta.
    replace (Z.min (Py.len u) (Splitter._chunk_overlap self))
      with (Py.len (drop (length u - Z.to_nat (Splitter._chunk_overlap self)) u))
      by (unfold Py.len in *; rewrite length_drop; lia).
    unfold Splitter._join_docs at 1.
    rewrite join_empty_separator, concat_chars, (strip_no_whitespace u Hu).
    assert (Hu_nonempty : u <> []) by (intros ->; discriminate).
    destruct u as [| x u]; [contradiction |].
    cbn [Splitter.append_doc].
    apply Hnext.
    + apply Forall_drop. exact Hu.
    + unfold Py.len in *. rewrite length_drop. lia.
    + apply Forall_app. split; [assumption | now repeat constructor].
    + right. unfold Py.len in *. rewrite length_drop. lia.
    + rewrite len_app. change (Py.len [x :: u]) with 1.
      unfold Py.len in *. rewrite length_drop. lia.
Qed.

Lemma hard_cut_shape (text : list N) (front : list (list N))
    (last_chunk : list N) :
  no_whitespace text ->
  Splitter.split_with self [] None text = front ++ [last_chunk] ->
  Forall full front
  /\ Py.len text = Py.len front * stride + Py.len last_chunk
  /\ Py.len last_chunk <= Splitter._chunk_size self
  /\ (front = [] \/ Splitter._chunk_overlap self < Py.len last_chunk).
Proof.
  intros Htext. unfold Splitter.split_with. rewrite split_into_characters.
  destruct (decide (Splitter._chunk_size self = 1)) as [Hone | Hmore].
  - rewrite split_loop_all_raw
      by (apply Forall_fmap, Forall_forall; intros c _; simpl;
          change (Py.len [c]) with 1; lia).
    simpl app. intros Hout.
    assert (Hall : Forall full (front ++ [last_chunk])).
    { rewrite <- Hout. apply Forall_fmap, Forall_forall. intros c _. simpl.
      change (Py.len [c]) with 1. lia. }
    apply Forall_app in Hall as [Hfront Hlast].
    apply Forall_cons in Hlast as [Hlast _]. split; [assumption |].
    apply (f_equal length) in Hout.
    rewrite length_fmap, length_app in Hout. simpl in Hout, Hlast.
    unfold Py.len in *. repeat split; [lia | lia | right; lia].
  - rewrite split_loop_all_good
      by (apply Forall_fmap, Forall_forall; intros c _; simpl;
          change (Py.len [c]) with 1; lia).
    simpl app. destruct (chars text) as [| d ds] eqn:Hchars.
    { intros Hout. now destruct front. }
    rewrite <- Hchars. unfold Splitter._merge_splits.
    change 0 with (Py.len (@nil N)).
    change (@nil (list N)) with (chars []) at 2.
    intros Hout.
    apply merge_chars_shape in Hout as (Hfront & Hsum & Hlast & Hlong);
      [| assumption | constructor | rewrite len_nil; lia | constructor
       | now left].
    split; [assumption |]. split; [| now split].
    change (Py.len (@nil (list N))) with 0 in Hsum.
    change (Py.len (@nil N)) with 0 in Hsum. lia.
Qed.

End HardCutShape.

(** For text without whitespace and an overlap smaller than the chunk
    size, every chunk but the last has exactly [chunk_size] characters;
    the last has at most that many, and more than [chunk_overlap] when it
    is not the only one. The length of the text is the number of full
    chunks times [chunk_size - chunk_overlap] plus the length of the last
    chunk. *)
Theorem hard_cut_chunk_sizes (settings : Config.Settings)
    (chunk_size chunk_overlap : option Z) (self : DocumentProcessor.t)
    (doc : Document) (front : list (list N)) (last_chunk : list N) :
  DocumentProcessor.__init__ settings chunk_size chunk_overlap = Ok self ->
  DocumentProcessor.self_chunk_overlap self
    < DocumentProcessor.self_chunk_size self ->
  Forall (fun c => Py.isspace c = false) (page_content doc) ->
  page_content <$> DocumentProcessor.split_documents self [doc]
    = front ++ [last_chunk] ->
  Forall (fun chunk => Py.len chunk = DocumentProcessor.self_chunk_size self)
    front
  /\ Py.len (page_content doc)
     = Py.len front
       * (DocumentProcessor.self_chunk_size self
          - DocumentProcessor.self_chunk_overlap self)
       + Py.len last_chunk
  /\ Py.len last_chunk <= DocumentProcessor.self_chunk_size self
  /\ (front = []
      \/ DocumentProcessor.self_chunk_overlap self < Py.len last_chunk).
Proof.
  intros Hinit Hsmaller Htext.
  apply init_valid in Hinit as (Hsplitter & Hsize & Hoverlap & _).
  unfold DocumentProcessor.split_documents.
  rewrite split_documents_singleton, Hsplitter.
  rewrite (split_text_no_whitespace _ _ _ Htext).
  now apply (hard_cut_shape
               (Splitter.mk (DocumentProcessor.self_chunk_size self)
                  (DocumentProcessor.self_chunk_overlap self)
                  DocumentProcessor.separators)).
Qed.

Lemma hard_cut_chunk_sizes_witness :
  Forall (fun chunk : list N => Py.len chunk = 10)
    [Py.lit "abcdefghij"; Py.lit "hijklmnopq"; Py.lit "opqrstuvwx"]
  /\ Py.len (Py.lit "abcdefghijklmnopqrstuvwxyz")
     = Py.len [Py.lit "abcdefghij"; Py.lit "hijklmnopq"; Py.lit "opqrstuvwx"]
       * (10 - 3)
       + Py.len (Py.lit "vwxyz")
  /\ Py.len (Py.lit "vwxyz") <= 10
  /\ ([Py.lit "abcdefghij"; Py.lit "hijklmnopq"; Py.lit "opqrstuvwx"] = []
      \/ 3 < Py.len (Py.lit "vwxyz")).
Proof.
  apply (hard_cut_chunk_sizes Demo.settings None None Demo.processor
           (mkDocument (Py.lit "abcdefghijklmnopqrstuvwxyz") ∅)).
  - reflexivity.
  - reflexivity.
  - repeat constructor.
  - reflexivity.
Defined.

(** The number of chunks: text without whitespace that is longer than the
    overlap is cut into as many chunks as [chunk_size - chunk_overlap]
    goes into the length beyond the overlap, rounded up. *)
Theorem hard_cut_chunk_count (settings : Config.Settings)
    (chunk_size chunk_overlap : option Z) (self : DocumentProcessor.t)
    (doc : Document) :
  DocumentProcessor.__init__ settings chunk_size chunk_overlap = Ok self ->
  DocumentProcessor.self_chunk_overlap self
    < DocumentProcessor.self_chunk_size self ->
  Forall (fun c => Py.isspace c = false) (page_content doc) ->
  DocumentProcessor.self_chunk_overlap self < Py.len (page_content doc) ->
  let stride :=
    DocumentProcessor.self_chunk_size self
    - DocumentProcessor.self_chunk_overlap self in
  Py.len (DocumentProcessor.split_documents self [doc])
  = (Py.len (page_content doc) - DocumentProcessor.self_chunk_overlap self
     + stride - 1) / stride.
Proof.
  intros Hinit Hsmaller Htext Hlong stride.
  apply init_valid in Hinit as (Hsplitter & Hsize & Hoverlap & _).
  replace (Py.len (DocumentProcessor.split_documents self [doc]))
    with (Py.len (page_content
                    <$> DocumentProcessor.split_documents self [doc]))
    by (unfold Py.len; now rewrite length_fmap).
  unfold DocumentProcessor.split_documents.
  rewrite split_documents_singleton, Hsplitter.
  rewrite (split_text_no_whitespace _ _ _ Htext).
  set (sp := Splitter.mk (DocumentProcessor.self_chunk_size self)
               (DocumentProcessor.self_chunk_overlap self)
               DocumentProcessor.separators).
  pose proof (hard_cut_rebuild sp Hoverlap Hsmaller (page_content doc) Htext)
    as Hrebuild.
  set (chunks := Splitter.split_with sp [] None (page_content doc)) in *.
  destruct (decide (chunks = [])) as [Hnone | Hsome].
  - rewrite Hnone in Hrebuild. simpl in Hrebuild.
    rewrite <- Hrebuild in Hlong. change (Py.len (@nil N)) with 0 in Hlong.
    lia.
  - destruct (exists_last Hsome) as (front & last_chunk & Hchunks).
    destruct (hard_cut_shape sp Hoverlap Hsmaller (page_content doc) front
                last_chunk Htext Hchunks) as (_ & Hsum & Hlast & Hmore).
    simpl in Hsum, Hlast, Hmore. fold stride in Hsum.
    rewrite Hchunks, len_app. change (Py.len [last_chunk]) with 1.
    assert (Hfirst : DocumentProcessor.self_chunk_overlap self
                     < Py.len last_chunk).
    { destruct Hmore as [-> | Hmore]; [| assumption].
      change (Py.len (@nil (list N))) with 0 in Hsum. lia. }
    apply (Z.div_unique _ _ _
             (Py.len last_chunk
              - DocumentProcessor.self_chunk_overlap self - 1));
      [left; unfold stride in *; lia | rewrite Hsum; ring].
Qed.

Lemma hard_cut_chunk_count_witness :
  Py.len (DocumentProcessor.split_documents Demo.processor
            [mkDocument (Py.lit "abcdefghijklmnopqrstuvwxyz") ∅])
  = (26 - 3 + (10 - 3) - 1) / (10 - 3).
Proof.
  apply (hard_cut_chunk_count Demo.settings None None Demo.processor
           (mkDocument (Py.lit "abcdefghijklmnopqrstuvwxyz") ∅)).
  - reflexivity.
  - reflexivity.
  - repeat constructor.
  - reflexivity.
Defined.

(** ** Splitting twice *)

Lemma lstrip_head_visible (s r : list N) (c : N) :
  Py.lstrip s = c :: r -> Py.isspace c = false.
Proof.
  induction s as [| a s IH]; simpl; [discriminate |].
  destruct (Py.isspace a) eqn:Ha; [exact IH | now intros [= <- _]].
Qed.

Lemma lstrip_fixed (s : list N) :
  (forall c r, s = c :: r -> Py.isspace c = false) -> Py.lstrip s = s.
Proof.
  destruct s as [| c r]; [reflexivity |]. intros Hhead. simpl.
  now rewrite (Hhead c r eq_refl).
Qed.

Lemma rstrip_last_visible (s r : list N) (c : N) :
  Py.rstrip s = r ++ [c] -> Py.isspace c = false.
Proof.
  unfold Py.rstrip. intros Hr.
  apply (f_equal reverse) in Hr.
  rewrite reverse_involutive, reverse_app in Hr. simpl in Hr.
  now apply lstrip_head_visible in Hr.
Qed.

Lemma rstrip_fixed (s : list N) :
  (forall c r, s = r ++ [c] -> Py.isspace c = false) -> Py.rstrip s = s.
Proof.
  intros Hlast. unfold Py.rstrip. rewrite lstrip_fixed.
  - apply reverse_involutive.
  - intros c r Hr. apply (Hlast c (reverse r)).
    apply (f_equal reverse) in Hr.
    now rewrite reverse_involutive, reverse_cons in Hr.
Qed.

(** Stripping a stripped text changes nothing. *)
Lemma strip_idempotent (s : list N) : Py.strip (Py.strip s) = Py.strip s.
Proof.
  assert (Hr : Py.rstrip (Py.strip s) = Py.strip s).
  { apply rstrip_fixed. intros c r Hs. unfold Py.strip in Hs.
    destruct (lstrip_suffix (Py.rstrip s)) as [a Ha].
    rewrite Hs, app_assoc in Ha.
    now apply rstrip_last_visible in Ha. }
  unfold Py.strip at 1. rewrite Hr.
  apply lstrip_fixed. intros c r Hs. unfold Py.strip in Hs.
  now apply lstrip_head_visible in Hs.
Qed.

Section Stripped.
Variable self : Splitter.t.
Hypothesis size_at_least_two : 2 <= Splitter._chunk_size self.

Local Abbreviation stripped := (fun s : list N => Py.strip s = s).

Lemma append_doc_stripped (docs current_doc : list (list N))
    (separator : list N) :
  Forall stripped docs ->
  Forall stripped
    (Splitter.append_doc docs (Splitter._join_docs current_doc separator)).
Proof.
  intros Hdocs. unfold Splitter.append_doc, Splitter._join_docs.
  pose proof (strip_idempotent (Py.join separator current_doc)) as Hs.
  destruct (Py.strip (Py.join separator current_doc)); [exact Hdocs |].
  apply Forall_app. split; [exact Hdocs | now repeat constructor].
Qed.

Lemma merge_loop_stripped (separator : list N)
    (splits docs current_doc : list (list N)) (total : Z) :
  Forall stripped docs ->
  Forall stripped
    (Splitter.merge_loop self separator splits docs current_doc total).
Proof.
  revert docs current_doc total.
  induction splits as [| d splits IH]; intros docs current_doc total Hdocs;
    simpl.
  - now apply append_doc_stripped.
  - destruct (_ <? _); [| now apply IH].
    destruct current_doc as [| d0 rest]; [now apply IH |].
    destruct (Splitter.pop_loop _ _ _ _ _) as [cur' total'].
    apply IH. now apply append_doc_stripped.
Qed.

(** With a chunk size of two or more, single characters are never
    emitted unmerged, so every chunk has been through [strip]. *)
Lemma split_loop_stripped (recurse : option (list N -> list (list N)))
    (splits final_chunks _good_splits : list (list N)) :
  match recurse with
  | Some f => forall s, Forall stripped (f s)
  | None => Forall (fun s : list N => Py.len s <= 1) splits
  end ->
  Forall stripped final_chunks ->
  Forall stripped
    (Splitter.split_loop self recurse splits final_chunks _good_splits).
Proof.
  revert final_chunks _good_splits.
  induction splits as [| s splits IH]; intros final good Hrec Hfinal; simpl.
  - destruct good; [assumption |].
    apply Forall_app. split; [assumption |].
    apply merge_loop_stripped. constructor.
  - assert (Hrec' : match recurse with
                    | Some f => forall s, Forall stripped (f s)
                    | None => Forall (fun s : list N => Py.len s <= 1) splits
                    end).
    { destruct recurse; [assumption |].
      now apply Forall_cons in Hrec as [_ Hrec]. }
    destruct (Z.ltb_spec (Py.len s) (Splitter._chunk_size self)) as [Hs | Hs];
      [now apply IH |].
    apply IH; [assumption |].
    assert (Hflushed : Forall stripped
      match good with
      | [] => final
      | _ :: _ => final ++ Splitter._merge_splits self good []
      end).
    { destruct good; [assumption |].
      apply Forall_app. split; [assumption |].
      apply merge_loop_stripped. constructor. }
    destruct recurse as [f |].
    + apply Forall_app. split; [assumption | apply Hrec].
    + apply Forall_cons in Hrec as [Hone _]. simpl in Hone. lia.
Qed.

Lemma split_text_rec_stripped (s : list N) (rest : list (list N))
    (text : list N) :
  last (s :: rest) = Some [] ->
  Forall stripped (Splitter._split_text self s rest text).
Proof.
  revert s text. induction rest as [| s' rest' IH]; intros s text Hlast.
  - injection Hlast as ->. simpl. unfold Splitter.split_with.
    apply split_loop_stripped; [apply characters_are_short | constructor].
  - simpl. destruct s as [| c s].
    + unfold Splitter.split_with.
      apply split_loop_stripped; [apply characters_are_short | constructor].
    + destruct (Py.contains (c :: s) text); [| now apply IH].
      unfold Splitter.split_with.
      apply split_loop_stripped; [| constructor].
      intros piece. now apply IH.
Qed.

End Stripped.

Lemma bind_fixed {A} (g : A -> list A) (l : list A) :
  Forall (fun x => g x = [x]) l -> l ≫= g = l.
Proof.
  induction 1 as [| x l Hx _ IH]; [reflexivity |].
  now rewrite bind_cons, Hx, IH.
Qed.

(** Splitting is idempotent for a chunk size of two or more: the chunks
    of [split_documents], split again by the same processor, come back
    unchanged. *)
Theorem split_documents_idempotent (settings : Config.Settings)
    (chunk_size chunk_overlap : option Z) (self : DocumentProcessor.t)
    (documents : list Document) :
  DocumentProcessor.__init__ settings chunk_size chunk_overlap = Ok self ->
  2 <= DocumentProcessor.self_chunk_size self ->
  DocumentProcessor.split_documents self
    (DocumentProcessor.split_documents self documents)
  = DocumentProcessor.split_documents self documents.
Proof.
  intros Hinit Htwo. apply init_valid in Hinit as (Hsplitter & Hsize & _).
  unfold DocumentProcessor.split_documents. rewrite Hsplitter.
  set (sp := Splitter.mk (DocumentProcessor.self_chunk_size self)
               (DocumentProcessor.self_chunk_overlap self)
               DocumentProcessor.separators).
  unfold Splitter.split_documents at 1. apply bind_fixed.
  apply Forall_forall. intros d Hd.
  apply split_documents_content in Hd as (d0 & _ & Hchunk).
  unfold Splitter.split_text in Hchunk. simpl in Hchunk.
  pose proof (split_text_rec_stripped sp Htwo [10; 10]%N
                [[10]; [46; 32]; [32]; []]%N (page_content d0) eq_refl)
    as Hstripped.
  pose proof (split_text_rec_nonempty sp [10; 10]%N
                [[10]; [46; 32]; [32]; []]%N (page_content d0)) as Hnonempty.
  pose proof (split_text_rec_within sp Hsize [10; 10]%N
                [[10]; [46; 32]; [32]; []]%N (page_content d0) eq_refl)
    as Hwithin.
  eapply Forall_forall in Hstripped; [| exact Hchunk].
  eapply Forall_forall in Hnonempty; [| exact Hchunk].
  eapply Forall_forall in Hwithin; [| exact Hchunk].
  rewrite (split_text_fits sp (page_content d));
    [now destruct d | discriminate | assumption | assumption | assumption].
Qed.

Lemma split_documents_idempotent_witness :
  DocumentProcessor.split_documents Demo.processor
    (DocumentProcessor.split_documents Demo.processor
       [mkDocument (Py.lit "ab cd ef gh ij kl mn") ∅])
  = DocumentProcessor.split_documents Demo.processor
      [mkDocument (Py.lit "ab cd ef gh ij kl mn") ∅].
Proof.
  apply (split_documents_idempotent Demo.settings None None Demo.processor).
  - reflexivity.
  - simpl. lia.
Defined.
